(** * Go tutorials: integer division with an error result, and the JSON
    error helper of package [api].

  The development embeds, function by function, the executable Go code of
  the repository:

  - [cmd/tutorial_2/main.go]: [intDivision], [printMe] and [main];
  - [cmd/tutorial_1/main.go]: [main], a straight-line sequence of
    declarations and [fmt.Println] calls;
  - package [api]: the structs [CoinBalanceParams], [CoinBalanceResponse],
    [Error], the helper [writeError] and the two handlers built on it.

  Go values are modelled as the code has them: an [int] is a [Z] inside the
  two's-complement range of the platform's word size, a [string] is a
  sequence of bytes, an [error] is either [nil] or a value carrying a
  message, and an [http.ResponseWriter] is an interface. *)

From Stdlib Require Import ZArith QArith Qround Lia Bool List Ascii String.
From Stdlib Require Import Floats.SpecFloat Zquot.
From stdpp Require Import base option strings pretty gmap.

Local Open Scope Z_scope.

(** ** Go's [int]: two's-complement integers of the platform's word size *)

Module GoInt.

(** [int] is 32 bits wide on 32-bit targets and 64 bits wide on 64-bit
    targets. *)
Inductive IntSize : Set := Int32 | Int64.

Definition bits (sz : IntSize) : Z :=
  match sz with Int32 => 32 | Int64 => 64 end.

Definition modulus (sz : IntSize) : Z := 2 ^ bits sz.
Definition MinInt (sz : IntSize) : Z := - 2 ^ (bits sz - 1).
Definition MaxInt (sz : IntSize) : Z := 2 ^ (bits sz - 1) - 1.

(** The values an [int] variable can hold. *)
Definition in_range (sz : IntSize) (x : Z) : Prop :=
  MinInt sz <= x <= MaxInt sz.

(** Two's-complement wrap-around of a mathematical result. *)
Definition wrap (sz : IntSize) (x : Z) : Z :=
  (x + 2 ^ (bits sz - 1)) mod modulus sz - 2 ^ (bits sz - 1).

(** [x / y] on [int]: the quotient truncated toward zero; the only
    quotient that does not fit, [MinInt / -1], wraps around. The caller
    guarantees [y <> 0] (Go panics otherwise). *)
Definition quo (sz : IntSize) (x y : Z) : Z := wrap sz (Z.quot x y).

(** [x % y] on [int]: the remainder of the truncated division, which has
    the sign of [x] and is smaller than [y] in magnitude, so it always
    fits. *)
Definition rem (x y : Z) : Z := Z.rem x y.

(** [x * y] and [x + y] on [int], with wrap-around. *)
Definition mul (sz : IntSize) (x y : Z) : Z := wrap sz (x * y).
Definition add (sz : IntSize) (x y : Z) : Z := wrap sz (x + y).

End GoInt.

(** ** Go's [error] values *)

Module GoError.

(** An error value, seen through the one method of the interface:
    [Error()] returns its message. [errors.New(text)] builds the error
    whose message is [text]. *)
Record errorString : Set := New { Error : string }.

(** A variable of interface type [error] holds [nil] or an error value. *)
Definition error : Set := option errorString.
Definition nil : error := None.

End GoError.

(** ** Package [strconv]: the shortest decimal form of a [float64] *)

Module strconv.

(** A [float64] is a [spec_float] of the IEEE 754 binary64 format: a
    signed zero, an infinity, a NaN, or [(-1)^s * m * 2^e]. *)
Abbreviation float64 := SpecFloat.spec_float.

Definition Qpow2 (e : Z) : Q := Qpower (2 # 1) e.
Definition Qpow10 (e : Z) : Q := Qpower (10 # 1) e.
Definition Qltb (a b : Q) : bool := negb (Qle_bool b a).

(** The mantissa and exponent of [m * 2^e] in the binary64 format: 53
    bits of mantissa, or fewer at the least exponent -1074. *)
Definition normalize (m : positive) (e : Z) : Z * Z :=
  let shift := 53 - (Z.log2 (Zpos m) + 1) in
  if e - shift <? -1074 then (Z.shiftl (Zpos m) (e + 1074), -1074)
  else (Z.shiftl (Zpos m) shift, e - shift).

(** The decimal exponent [k] of [v], with [10^(k-1) <= v < 10^k], where
    [2^b <= v < 2^(b+1)]. *)
Definition decimal_exponent (v : Q) (b : Z) : Z :=
  let est := b * 30103 / 100000 in
  if Qltb v (Qpow10 (est - 1)) then est - 1
  else if Qltb v (Qpow10 est) then est
  else if Qltb v (Qpow10 (est + 1)) then est + 1
  else est + 2.

(** The decimal of [n] digits, or of more, nearest to [v] among those
    between [lo] and [hi], the reals that round to the float; the bounds
    themselves count when the mantissa is even. The search starts with
    one digit; 17 digits always identify a [float64]. *)
Fixpoint shortest_digits (fuel : nat) (n : Z) (v lo hi : Q)
    (inclusive : bool) (k : Z) : Z * Z :=
  let u := Qpow10 (k - n) in
  let dl := Qfloor (v / u) in
  let dh := dl + 1 in
  let inside (x : Q) :=
    if inclusive then Qle_bool lo x && Qle_bool x hi
    else Qltb lo x && Qltb x hi in
  let xl := (inject_Z dl * u)%Q in
  let xh := (inject_Z dh * u)%Q in
  match fuel with
  | O => (dl, n)
  | S fuel' =>
      match inside xl, inside xh with
      | true, true =>
          match Qcompare (v - xl) (xh - v) with
          | Lt => (dl, n)
          | Gt => (dh, n)
          | Eq => (if Z.even dl then dl else dh, n)
          end
      | true, false => (dl, n)
      | false, true => (dh, n)
      | false, false => shortest_digits fuel' (n + 1) v lo hi inclusive k
      end
  end.

Fixpoint strip_zeros_rev (rev_digits : list ascii) : list ascii :=
  match rev_digits with
  | "0"%char :: rest => strip_zeros_rev rest
  | _ => rev_digits
  end.

(** Trailing zeros of a digit string carry no information. *)
Definition strip_trailing_zeros (s : string) : string :=
  string_of_list_ascii
    (List.rev (strip_zeros_rev (List.rev (list_ascii_of_string s)))).

(** The shortest digits [d1 d2 ... dn] and the position [dp] of the
    decimal point with [0.d1d2...dn * 10^dp] rounding to [m * 2^e]. *)
Definition shortest (m : positive) (e : Z) : string * Z :=
  let '(M, E) := normalize m e in
  let v := (inject_Z M * Qpow2 E)%Q in
  let hi := (inject_Z (2 * M + 1) * Qpow2 (E - 1))%Q in
  let lo :=
    if (M =? 2 ^ 52) && (-1074 <? E)
    then (inject_Z (4 * M - 1) * Qpow2 (E - 2))%Q
    else (inject_Z (2 * M - 1) * Qpow2 (E - 1))%Q in
  let k := decimal_exponent v (Z.log2 M + E) in
  let '(d, n) := shortest_digits 17 1 v lo hi (Z.even M) k in
  let s := pretty d in
  (strip_trailing_zeros s, k + (Z.of_nat (String.length s) - n)).

(** The digit [d.d[i]], or 0 outside the digits. *)
Definition digit_at (digs : string) (i : Z) : string :=
  if i <? 0 then "0"
  else match String.get (Z.to_nat i) digs with
       | Some c => String c EmptyString
       | None => "0"
       end.

Fixpoint digits_from (digs : string) (i : Z) (count : nat) : string :=
  match count with
  | O => EmptyString
  | S count' => digit_at digs i +:+ digits_from digs (i + 1) count'
  end.

(** [%f]: the integer part, then [prec] digits after the point. *)
Definition fmtF (digs : string) (dp : Z) (prec : Z) : string :=
  (if 0 <? dp then digits_from digs 0 (Z.to_nat dp) else "0")
  +:+ (if 0 <? prec then "." +:+ digits_from digs dp (Z.to_nat prec)
       else EmptyString).

(** [%e]: one digit, [prec] digits after the point, and the exponent
    with its sign and at least two digits. *)
Definition fmtE (digs : string) (dp : Z) (prec : Z) : string :=
  let exp := if (String.length digs =? 0)%nat then 0 else dp - 1 in
  digit_at digs 0
  +:+ (if 0 <? prec then "." +:+ digits_from digs 1 (Z.to_nat prec)
       else EmptyString)
  +:+ "e" +:+ (if exp <? 0 then "-" else "+")
  +:+ (if Z.abs exp <? 10 then "0" else EmptyString) +:+ pretty (Z.abs exp).

(** [FormatFloat(f, 'g', -1, 64)] without the sign, for a finite nonzero
    value: the shortest digits, laid out as [%e] when the decimal exponent
    is below -4 or at least 6, and as [%f] otherwise. *)
Definition format_g_shortest (m : positive) (e : Z) : string :=
  let '(digs, dp) := shortest m e in
  let nd := Z.of_nat (String.length digs) in
  let exp := dp - 1 in
  if (exp <? -4) || (6 <=? exp) then fmtE digs dp (nd - 1)
  else fmtF digs dp (Z.max (nd - dp) 0).

(** The sign of a float, [true] for negative. *)
Definition signbit (f : float64) : bool :=
  match f with
  | SpecFloat.S754_zero s => s
  | SpecFloat.S754_infinity s => s
  | SpecFloat.S754_nan => false
  | SpecFloat.S754_finite s _ _ => s
  end.

(** The digits of [FormatFloat(f, 'g', -1, 64)], without sign. *)
Definition FormatFloat_g_unsigned (f : float64) : string :=
  match f with
  | SpecFloat.S754_zero _ => "0"
  | SpecFloat.S754_infinity _ => "Inf"
  | SpecFloat.S754_nan => "NaN"
  | SpecFloat.S754_finite _ m e => format_g_shortest m e
  end.

End strconv.

(** ** Package [fmt]: the operands and verbs the programs use *)

Module fmt.

(** The newline character, written [\n] in a Go string literal. *)
Definition nl : string := String "010" EmptyString.

(** The operand of a print call, tagged with its dynamic type. Signed
    integers ([int], [int32], [int64], [rune]) print alike, and so do the
    unsigned ones. *)
Inductive value : Set :=
| Int (n : Z)
| Uint (n : Z)
| Float64 (f : strconv.float64)
| Complex128 (re im : strconv.float64)
| Str (s : string)
| Bool (b : bool).

(** [fmtFloat] for the verb [%v]: the sign, then the shortest digits. An
    infinity always shows its sign; [plus] asks for the sign of a
    positive number too. *)
Definition fmtFloat (plus : bool) (f : strconv.float64) : string :=
  match f with
  | SpecFloat.S754_nan => if plus then "+NaN" else "NaN"
  | SpecFloat.S754_infinity s => if s then "-Inf" else "+Inf"
  | _ =>
      (if strconv.signbit f then "-" else if plus then "+" else EmptyString)
      +:+ strconv.FormatFloat_g_unsigned f
  end.

(** The default format [%v] of an operand. The imaginary part of a
    complex number always has a sign. *)
Definition fmt_v (x : value) : string :=
  match x with
  | Int n => pretty n
  | Uint n => pretty n
  | Float64 f => fmtFloat false f
  | Complex128 re im => "(" +:+ fmtFloat false re +:+ fmtFloat true im +:+ "i)"
  | Str s => s
  | Bool true => "true"
  | Bool false => "false"
  end.

(** [Sprintf format a...], for the formats made of plain text, [%%] and
    the verb [%v], with exactly one operand per verb. [None] marks a
    format outside this fragment (another verb, flags, a width, a missing
    or an extra operand), which the model does not render. *)
Fixpoint Sprintf (format : string) (a : list value) : option string :=
  match format with
  | EmptyString => match a with [] => Some EmptyString | _ :: _ => None end
  | String "%" (String "v" rest) =>
      match a with
      | x :: a' => (fun s => fmt_v x +:+ s) <$> Sprintf rest a'
      | [] => None
      end
  | String "%" (String "%" rest) => String "%" <$> Sprintf rest a
  | String "%" _ => None
  | String c rest => String c <$> Sprintf rest a
  end.

(** [Sprintln a...]: the operands in their default format, separated by
    spaces, followed by a newline. *)
Fixpoint Sprint_operands (a : list value) : string :=
  match a with
  | [] => EmptyString
  | [x] => fmt_v x
  | x :: a' => fmt_v x +:+ " " +:+ Sprint_operands a'
  end.

Definition Sprintln (a : list value) : string :=
  Sprint_operands a +:+ nl.

(** Standard output is the text written so far; [Println] and [Printf]
    append to it. *)
Definition stdout : Set := string.

Definition Println (a : list value) (out : stdout) : stdout :=
  out +:+ Sprintln a.

Definition Printf (format : string) (a : list value) (out : stdout)
  : option stdout :=
  (fun s => out +:+ s) <$> Sprintf format a.

End fmt.

(** ** Package [unicode/utf8]: decoding one rune of a string *)

Module utf8.

Definition RuneError : Z := 0xFFFD.
Definition RuneSelf : Z := 0x80.

(** The byte [s[i]] as a number. *)
Definition byte (c : ascii) : Z := Z.of_N (N_of_ascii c).

(** For a leading byte of a multi-byte sequence: the length of the
    sequence and the range accepted for its second byte ([first] and
    [acceptRanges]); [None] for a byte that starts no sequence. *)
Definition first (s0 : Z) : option (nat * Z * Z) :=
  if (0xC2 <=? s0) && (s0 <=? 0xDF) then Some (2%nat, 0x80, 0xBF)
  else if s0 =? 0xE0 then Some (3%nat, 0xA0, 0xBF)
  else if s0 =? 0xED then Some (3%nat, 0x80, 0x9F)
  else if (0xE1 <=? s0) && (s0 <=? 0xEF) then Some (3%nat, 0x80, 0xBF)
  else if s0 =? 0xF0 then Some (4%nat, 0x90, 0xBF)
  else if (0xF1 <=? s0) && (s0 <=? 0xF3) then Some (4%nat, 0x80, 0xBF)
  else if s0 =? 0xF4 then Some (4%nat, 0x80, 0x8F)
  else None.

(** A continuation byte lies between [locb] and [hicb]. *)
Definition continuation (b : Z) : bool := (0x80 <=? b) && (b <=? 0xBF).

(** [DecodeRuneInString s]: the first rune of [s] and its width in bytes;
    [(RuneError, 1)] when the encoding is invalid, [(RuneError, 0)] when
    [s] is empty. *)
Definition DecodeRuneInString (s : string) : Z * nat :=
  match s with
  | EmptyString => (RuneError, 0%nat)
  | String c0 t0 =>
      let s0 := byte c0 in
      if s0 <? RuneSelf then (s0, 1%nat)
      else
        match first s0 with
        | None => (RuneError, 1%nat)
        | Some (sz, lo, hi) =>
            match t0 with
            | EmptyString => (RuneError, 1%nat)
            | String c1 t1 =>
                let s1 := byte c1 in
                if (s1 <? lo) || (hi <? s1) then (RuneError, 1%nat)
                else if (sz <=? 2)%nat then
                  (Z.lor (Z.shiftl (Z.land s0 0x1F) 6) (Z.land s1 0x3F),
                   2%nat)
                else
                  match t1 with
                  | EmptyString => (RuneError, 1%nat)
                  | String c2 t2 =>
                      let s2 := byte c2 in
                      if negb (continuation s2) then (RuneError, 1%nat)
                      else if (sz <=? 3)%nat then
                        (Z.lor (Z.lor (Z.shiftl (Z.land s0 0x0F) 12)
                                      (Z.shiftl (Z.land s1 0x3F) 6))
                               (Z.land s2 0x3F),
                         3%nat)
                      else
                        match t2 with
                        | EmptyString => (RuneError, 1%nat)
                        | String c3 _ =>
                            let s3 := byte c3 in
                            if negb (continuation s3) then (RuneError, 1%nat)
                            else
                              (Z.lor (Z.lor (Z.lor
                                 (Z.shiftl (Z.land s0 0x07) 18)
                                 (Z.shiftl (Z.land s1 0x3F) 12))
                                 (Z.shiftl (Z.land s2 0x3F) 6))
                                 (Z.land s3 0x3F),
                               4%nat)
                        end
                  end
            end
        end
  end.

End utf8.

(** ** Package [encoding/json]: encoding integers, strings and [Error] *)

Module json.
Import utf8.

(** The double quote and the backslash. *)
Definition dq : string := String "034" EmptyString.
Definition bs : string := String "092" EmptyString.

(** [hex[i]], a digit of "0123456789abcdef". *)
Definition hex (i : Z) : string :=
  String (if i <? 10 then ascii_of_N (Z.to_N (48 + i))
          else ascii_of_N (Z.to_N (87 + i))) EmptyString.

(** [htmlSafeSet[b]]: the ASCII bytes copied as they are, that is the
    printable ones but the double quote, the backslash and the HTML
    characters [<], [>], [&]. *)
Definition htmlSafeSet (b : Z) : bool :=
  (0x20 <=? b) && (b <? 0x80)
  && negb ((b =? 34) || (b =? 92) || (b =? 60) || (b =? 62) || (b =? 38)).

(** The escape written for an ASCII byte outside [htmlSafeSet]. *)
Definition escape_byte (c : ascii) : string :=
  let b := byte c in
  if (b =? 92) || (b =? 34) then bs +:+ String c EmptyString
  else if b =? 8 then bs +:+ "b"
  else if b =? 12 then bs +:+ "f"
  else if b =? 10 then bs +:+ "n"
  else if b =? 13 then bs +:+ "r"
  else if b =? 9 then bs +:+ "t"
  else bs +:+ "u00" +:+ hex (Z.shiftr b 4) +:+ hex (Z.land b 0xF).

(** [src[:n]] and [src[n:]]. *)
Fixpoint take (n : nat) (s : string) : string :=
  match n, s with
  | S n', String c s' => String c (take n' s')
  | _, _ => EmptyString
  end.

Fixpoint drop (n : nat) (s : string) : string :=
  match n, s with
  | S n', String _ s' => drop n' s'
  | _, _ => s
  end.

(** The loop of [appendString] with [escapeHTML] set, on the part of
    [src] not yet consumed. Every iteration consumes at least one byte, so
    [fuel] = the length of [src] iterations are enough. *)
Fixpoint appendString_loop (fuel : nat) (src : string) : string :=
  match fuel, src with
  | O, _ => EmptyString
  | _, EmptyString => EmptyString
  | S fuel', String c rest =>
      let b := byte c in
      if b <? RuneSelf then
        if htmlSafeSet b then String c (appendString_loop fuel' rest)
        else escape_byte c +:+ appendString_loop fuel' rest
      else
        let '(r, size) := DecodeRuneInString src in
        if (r =? RuneError) && (size =? 1)%nat then
          bs +:+ "ufffd" +:+ appendString_loop fuel' rest
        else if (r =? 0x2028) || (r =? 0x2029) then
          bs +:+ "u202" +:+ hex (Z.land r 0xF)
             +:+ appendString_loop fuel' (drop size src)
        else
          take size src +:+ appendString_loop fuel' (drop size src)
  end.

(** [appendString(dst, src, true)]: the JSON string literal for [src]. *)
Definition appendString (src : string) : string :=
  dq +:+ appendString_loop (String.length src) src +:+ dq.

(** An [int] field: its decimal digits. *)
Definition appendInt (n : Z) : string := pretty n.

(** The strings made only of bytes of [htmlSafeSet], which need no
    escape. *)
Fixpoint all_htmlSafe (s : string) : bool :=
  match s with
  | EmptyString => true
  | String c rest => htmlSafeSet (byte c) && all_htmlSafe rest
  end.

End json.

(** ** Package [net/http]: headers, status codes and [ResponseWriter] *)

Module http.
Import GoError utf8.

Definition StatusOK : Z := 200.
Definition StatusBadRequest : Z := 400.
Definition StatusInternalServerError : Z := 500.

(** [type Header map[string][]string] *)
Abbreviation Header := (gmap string (list string)).

(** The bytes allowed in a header field name: letters, digits and the
    punctuation of an RFC 7230 token. *)
Definition validHeaderFieldByte (c : ascii) : bool :=
  let b := byte c in
  ((48 <=? b) && (b <=? 57)) || ((65 <=? b) && (b <=? 90))
  || ((97 <=? b) && (b <=? 122))
  || (b =? 33) || (b =? 35) || (b =? 36) || (b =? 37) || (b =? 38)
  || (b =? 39) || (b =? 42) || (b =? 43) || (b =? 45) || (b =? 46)
  || (b =? 94) || (b =? 95) || (b =? 96) || (b =? 124) || (b =? 126).

Fixpoint all_valid (s : string) : bool :=
  match s with
  | EmptyString => true
  | String c rest => validHeaderFieldByte c && all_valid rest
  end.

(** The second loop of [canonicalMIMEHeaderKey]: upper case for the first
    letter and for a letter after a dash, lower case elsewhere. *)
Fixpoint canonical_case (upper : bool) (s : string) : string :=
  match s with
  | EmptyString => EmptyString
  | String c rest =>
      let b := byte c in
      let b' :=
        if upper && (97 <=? b) && (b <=? 122) then b - 32
        else if negb upper && (65 <=? b) && (b <=? 90) then b + 32
        else b in
      String (ascii_of_N (Z.to_N b')) (canonical_case (b' =? 45) rest)
  end.

(** [textproto.CanonicalMIMEHeaderKey]: a key holding a byte that is not
    valid in a field name is returned as it is. *)
Definition CanonicalMIMEHeaderKey (s : string) : string :=
  if all_valid s then canonical_case true s else s.

(** [h.Set(key, value)] and [h.Get(key)] *)
Definition Header_Set (key value : string) (h : Header) : Header :=
  <[CanonicalMIMEHeaderKey key := [value]]> h.

Definition Header_Get (key : string) (h : Header) : string :=
  match h !! CanonicalMIMEHeaderKey key with
  | Some (v :: _) => v
  | _ => EmptyString
  end.

(** [checkWriteHeaderCode]: [WriteHeader] panics on a code that does not
    have three digits. *)
Definition checkWriteHeaderCode (code : Z) : bool :=
  negb ((code <? 100) || (code >? 999)).

(** [type ResponseWriter interface]. A method that panics returns
    [None]. [Header()] returns the writer's own header map, which the
    caller mutates in place: [store_Header] puts the mutated map back. *)
Class ResponseWriter (W : Type) : Type := {
  get_Header : W -> Header;
  store_Header : Header -> W -> W;
  WriteHeader : Z -> W -> option W;
  Write : string -> W -> option (W * (Z * error))
}.

End http.

(** ** Package [net/http/httptest]: the in-memory [ResponseWriter] *)

Module httptest.
Import GoError http.

Section Recorder.

(** [http.DetectContentType], which [Write] applies to the data when no
    header was written and no content type was set. The programs of this
    repository never reach it; it is left abstract. *)
Variable DetectContentType : string -> string.

(** [type ResponseRecorder struct]: the status code, the header map handed
    out by [Header()], the body written so far, whether the header was
    written, and the headers as they were at that moment. *)
Record ResponseRecorder : Type := {
  Code : Z;
  HeaderMap : Header;
  Body : string;
  wroteHeader : bool;
  snapHeader : option Header
}.

(** [NewRecorder()] *)
Definition NewRecorder : ResponseRecorder :=
  {| Code := 200; HeaderMap := ∅; Body := EmptyString;
     wroteHeader := false; snapHeader := None |}.

(** [func (rw *ResponseRecorder) WriteHeader(code int)] *)
Definition Recorder_WriteHeader (code : Z) (rw : ResponseRecorder)
  : option ResponseRecorder :=
  if wroteHeader rw then Some rw
  else if checkWriteHeaderCode code then
    Some {| Code := code; HeaderMap := HeaderMap rw; Body := Body rw;
            wroteHeader := true; snapHeader := Some (HeaderMap rw) |}
  else None.

(** [func (rw *ResponseRecorder) writeHeader(b []byte, str string)] *)
Definition Recorder_writeHeader (b : string) (rw : ResponseRecorder)
  : option ResponseRecorder :=
  if wroteHeader rw then Some rw
  else
    let m := HeaderMap rw in
    let hasType := bool_decide (is_Some (m !! "Content-Type"%string)) in
    let hasTE :=
      negb (String.eqb (Header_Get "Transfer-Encoding" m) EmptyString) in
    let m :=
      if negb hasType && negb hasTE
      then Header_Set "Content-Type" (DetectContentType b) m else m in
    Recorder_WriteHeader 200
      {| Code := Code rw; HeaderMap := m; Body := Body rw;
         wroteHeader := wroteHeader rw; snapHeader := snapHeader rw |}.

(** [func (rw *ResponseRecorder) Write(buf []byte) (int, error)] *)
Definition Recorder_Write (buf : string) (rw : ResponseRecorder)
  : option (ResponseRecorder * (Z * error)) :=
  rw ← Recorder_writeHeader buf rw;
  Some ({| Code := Code rw; HeaderMap := HeaderMap rw;
           Body := Body rw +:+ buf;
           wroteHeader := wroteHeader rw; snapHeader := snapHeader rw |},
        (Z.of_nat (String.length buf), nil)).

#[export] Instance Recorder_ResponseWriter
  : ResponseWriter ResponseRecorder := {
  get_Header := HeaderMap;
  store_Header := fun h rw =>
    {| Code := Code rw; HeaderMap := h; Body := Body rw;
       wroteHeader := wroteHeader rw; snapHeader := snapHeader rw |};
  WriteHeader := Recorder_WriteHeader;
  Write := Recorder_Write
}.

End Recorder.

End httptest.

(** ** A [ResponseWriter] that accepts every call and records it *)

Module callrecorder.
Import GoError http.

(** A call of a method of the interface: [WriteHeader(code)], with the
    header map as it is at that moment, or [Write(data)]. *)
Inductive call : Type :=
| CallWriteHeader (code : Z) (h : Header)
| CallWrite (data : string).

(** The header map handed out by [Header()] and the calls so far, oldest
    first. *)
Record CallRecorder : Type := {
  header : Header;
  calls : list call
}.

#[export] Instance CallRecorder_ResponseWriter
  : ResponseWriter CallRecorder := {
  get_Header := header;
  store_Header := fun h w => {| header := h; calls := calls w |};
  WriteHeader := fun code w =>
    Some {| header := header w;
            calls := calls w ++ [CallWriteHeader code (header w)] |};
  Write := fun data w =>
    Some ({| header := header w; calls := calls w ++ [CallWrite data] |},
          (Z.of_nat (String.length data), nil))
}.

End callrecorder.

(** ** [cmd/tutorial_1/main.go] *)

Module Tutorial1.
Import fmt.

(** The types of the variables of [main]. *)
Inductive gotype : Set :=
| TInt64 | TFloat64 | TString | TUint64 | TBool | TComplex128 | TRune.

(** The zero value of a type: what [var x T] stores in [x]. *)
Definition zero_value (t : gotype) : value :=
  match t with
  | TInt64 => Int 0
  | TFloat64 => Float64 (SpecFloat.S754_zero false)
  | TString => Str EmptyString
  | TUint64 => Uint 0
  | TBool => Bool false
  | TComplex128 =>
      Complex128 (SpecFloat.S754_zero false) (SpecFloat.S754_zero false)
  | TRune => Int 0
  end.

(** The expressions of [main]: a constant, already converted to the type
    of the variable it is stored in, or a variable. *)
Inductive expr : Set :=
| Const (v : value)
| Var (x : string).

(** The statements of [main]. *)
Inductive stmt : Set :=
| VarDecl (x : string) (t : gotype)                (* var x T *)
| VarDeclInit (x : string) (t : gotype) (e : expr) (* var x T = e *)
| Assign (x : string) (e : expr)                   (* x = e *)
| ShortVarDecl (x : string) (e : expr)             (* x := e *)
| CallPrintln (a : list expr).                     (* fmt.Println(a...) *)

(** The float 10.5 = 21 * 2^-1 and the float 10 = 5 * 2^1. *)
Definition float_10_5 : strconv.float64 := SpecFloat.S754_finite false 21 (-1).
Definition float_10 : strconv.float64 := SpecFloat.S754_finite false 5 1.

(** The body of [func main()], statement by statement. *)
Definition main_body : list stmt :=
  [ CallPrintln [Const (Str "Hello, World!")];
    VarDecl "intNum" TInt64;
    Assign "intNum" (Const (Int 10));
    CallPrintln [Var "intNum"];
    VarDecl "floatNum" TFloat64;
    Assign "floatNum" (Const (Float64 float_10_5));
    CallPrintln [Var "floatNum"];
    VarDecl "stringNum" TString;
    Assign "stringNum" (Const (Str "10"));
    CallPrintln [Var "stringNum"];
    VarDecl "uintNum" TUint64;
    Assign "uintNum" (Const (Uint 10));
    CallPrintln [Var "uintNum"];
    VarDecl "boolNum" TBool;
    Assign "boolNum" (Const (Bool true));
    CallPrintln [Var "boolNum"];
    VarDecl "complexNum" TComplex128;
    Assign "complexNum" (Const (Complex128 float_10 float_10));
    CallPrintln [Var "complexNum"];
    VarDeclInit "myRune" TRune (Const (Int (utf8.byte "a")));
    CallPrintln [Var "myRune"];
    VarDecl "rune2" TRune;
    CallPrintln [Var "rune2"];
    ShortVarDecl "newVar" (Const (Str "text")) ].

(** *** Running the statements *)

Definition eval (env : gmap string value) (e : expr) : option value :=
  match e with
  | Const v => Some v
  | Var x => env !! x
  end.

Fixpoint eval_list (env : gmap string value) (a : list expr)
  : option (list value) :=
  match a with
  | [] => Some []
  | e :: a' =>
      v ← eval env e; vs ← eval_list env a'; Some (v :: vs)
  end.

(** One statement, on the variables and the standard output; [None] when
    it mentions a variable that is not declared. *)
Definition exec_stmt (s : stmt) (st : gmap string value * stdout)
  : option (gmap string value * stdout) :=
  let '(env, out) := st in
  match s with
  | VarDecl x t => Some (<[x := zero_value t]> env, out)
  | VarDeclInit x _ e => v ← eval env e; Some (<[x := v]> env, out)
  | Assign x e =>
      _ ← env !! x; v ← eval env e; Some (<[x := v]> env, out)
  | ShortVarDecl x e => v ← eval env e; Some (<[x := v]> env, out)
  | CallPrintln a => vs ← eval_list env a; Some (env, Println vs out)
  end.

Fixpoint exec (body : list stmt) (st : gmap string value * stdout)
  : option (gmap string value * stdout) :=
  match body with
  | [] => Some st
  | s :: body' => st' ← exec_stmt s st; exec body' st'
  end.

(** *** The compiler's check of unused variables *)

Definition vars_of (e : expr) : list string :=
  match e with
  | Const _ => []
  | Var x => [x]
  end.

(** The variables a statement declares, and those it uses: a variable is
    used where its value is read; being assigned to is not a use. *)
Definition declares (s : stmt) : list string :=
  match s with
  | VarDecl x _ | VarDeclInit x _ _ | ShortVarDecl x _ => [x]
  | Assign _ _ | CallPrintln _ => []
  end.

Definition uses (s : stmt) : list string :=
  match s with
  | VarDecl _ _ => []
  | VarDeclInit _ _ e | Assign _ e | ShortVarDecl _ e => vars_of e
  | CallPrintln a => flat_map vars_of a
  end.

(** The variables the compiler reports as "declared and not used". *)
Definition declared_and_not_used (body : list stmt) : list string :=
  List.filter
    (fun x => negb (existsb (String.eqb x) (flat_map uses body)))
    (flat_map declares body).

(** What [go run] does with a function body: the compiler rejects it when
    a variable is declared and not used, and no program runs; otherwise
    the program runs, from an empty standard output. *)
Inductive outcome : Set :=
| BuildFailed (unused : list string)
| Exited (out : stdout)
| Stuck.

Definition go_run (body : list stmt) : outcome :=
  match declared_and_not_used body with
  | [] =>
      match exec body (∅, EmptyString) with
      | Some (_, out) => Exited out
      | None => Stuck
      end
  | x :: unused => BuildFailed (x :: unused)
  end.

(** [func main()] as the toolchain sees it. *)
Definition main : outcome := go_run main_body.

End Tutorial1.

(** ** [cmd/tutorial_2/main.go] *)

Module Tutorial2.
Import GoInt GoError fmt.

(** [func intDivision(numerator int, denominator int) (int, int, error)] *)
Definition intDivision (sz : IntSize) (numerator denominator : Z)
  : Z * Z * error :=
  let err := nil in
  if denominator =? 0 then
    let err := Some (New "Cannot devide by Zero") in
    (0, 0, err)
  else
    let result := quo sz numerator denominator in
    let remainder := rem numerator denominator in
    (result, remainder, err).

(** [func printMe(printValue string)] *)
Definition printMe (printValue : string) (out : stdout) : stdout :=
  Println [Str printValue] out.

(** Lines 14 to 23 of [main]: the call of [intDivision] and the [switch]
    on its results, for arbitrary operands. The first case that holds
    runs, and only that one. *)
Definition main_from (sz : IntSize) (numerator denominator : Z)
    (out : stdout) : option stdout :=
  let '(result, reminder, err) := intDivision sz numerator denominator in
  match err with
  | Some e => (* case err != nil *)
      Printf (Error e +:+ nl) [] out
  | None =>
      if reminder =? 0 then
        Printf ("The result of the integer division is %v" +:+ nl)
               [Int result] out
      else (* default *)
        Printf ("The result of the integer division is %v with remainder %v"
                +:+ nl)
               [Int result; Int reminder] out
  end.

(** [func main()], started on an empty standard output. *)
Definition main (sz : IntSize) : option stdout :=
  let printValue := "Hello World" in
  let out := printMe printValue EmptyString in
  let numerator := 10 in
  let denominator := 2 in
  main_from sz numerator denominator out.

End Tutorial2.

(** ** Package [api] *)

Module api.
Import GoError fmt http json.

(** [type CoinBalanceParams struct] *)
Module CoinBalanceParams.
Record t : Set := { Username : string }.
End CoinBalanceParams.

(** [type CoinBalanceResponse struct] *)
Module CoinBalanceResponse.
Record t : Set := {
  Code : Z;      (* success code, usually 200 *)
  Balance : Z    (* account balance, an int64 *)
}.
End CoinBalanceResponse.

(** [type Error struct] *)
Module Error.
Record t : Set := {
  Code : Z;          (* error code *)
  Message : string   (* error message *)
}.
End Error.

(** [json.Marshal] of an [Error]: an object with the exported fields in
    the order of their declaration, under their Go names. *)
Definition Marshal_Error (v : Error.t) : string :=
  "{" +:+ dq +:+ "Code" +:+ dq +:+ ":" +:+ appendInt (Error.Code v)
      +:+ "," +:+ dq +:+ "Message" +:+ dq +:+ ":"
      +:+ appendString (Error.Message v) +:+ "}".

(** [json.NewEncoder(w).Encode(v)] for an [Error]: one [Write] of the
    encoding followed by a newline; the result is [Write]'s error. *)
Definition Encode_Error `{ResponseWriter W} (w : W) (v : Error.t)
  : option (W * error) :=
  '(w, (_, err)) ← Write (Marshal_Error v +:+ nl) w;
  Some (w, err).

(** [func writeError(w http.ResponseWriter, message string, code int)].
    The result is the writer after the call; [None] when a call on the
    writer panics. *)
Definition writeError `{ResponseWriter W} (w : W) (message : string)
    (code : Z) : option W :=
  let resp := {| Error.Code := code; Error.Message := message |} in
  let w :=
    store_Header (Header_Set "Content-type" "application/json" (get_Header w))
                 w in
  w ← WriteHeader code w;
  '(w, _) ← Encode_Error w resp;
  Some w.

(** [RequestErrorHandler]; calling [err.Error()] on a nil [error]
    panics. *)
Definition RequestErrorHandler `{ResponseWriter W} (w : W) (err : error)
  : option W :=
  e ← err;
  writeError w (GoError.Error e) StatusBadRequest.

(** [InternalErrorHandler] *)
Definition InternalErrorHandler `{ResponseWriter W} (w : W) : option W :=
  writeError w "An Unexpected error ocurred" StatusInternalServerError.

(** *** The declarations of the package

    The top-level declarations of the file, as data: the struct types with
    their fields, and the functions (the declared [writeError] and the two
    function literals stored in package variables) with their receiver,
    parameter types and result types. *)

Record FieldDecl : Set := { field_name : string; field_type : string }.

Record StructDecl : Set := {
  struct_name : string;
  struct_fields : list FieldDecl
}.

Record FuncDecl : Set := {
  func_name : string;
  func_receiver : option string;
  func_params : list string;
  func_results : list string
}.

Definition struct_decls : list StructDecl :=
  [ {| struct_name := "CoinBalanceParams";
       struct_fields :=
         [ {| field_name := "Username"; field_type := "string" |} ] |};
    {| struct_name := "CoinBalanceResponse";
       struct_fields :=
         [ {| field_name := "Code"; field_type := "int" |};
           {| field_name := "Balance"; field_type := "int64" |} ] |};
    {| struct_name := "Error";
       struct_fields :=
         [ {| field_name := "Code"; field_type := "int" |};
           {| field_name := "Message"; field_type := "string" |} ] |} ].

Definition func_decls : list FuncDecl :=
  [ {| func_name := "writeError"; func_receiver := None;
       func_params := ["http.ResponseWriter"; "string"; "int"];
       func_results := [] |};
    {| func_name := "RequestErrorHandler"; func_receiver := None;
       func_params := ["http.ResponseWriter"; "error"];
       func_results := [] |};
    {| func_name := "InternalErrorHandler"; func_receiver := None;
       func_params := ["http.ResponseWriter"];
       func_results := [] |} ].

(** An identifier is exported (public) when it starts with an upper-case
    letter. *)
Definition exported (name : string) : bool :=
  match name with
  | EmptyString => false
  | String c _ => (65 <=? utf8.byte c) && (utf8.byte c <=? 90)
  end.

(** The methods of a type: the functions declared with it as receiver. *)
Definition methods_of (type_name : string) : list FuncDecl :=
  List.filter
    (fun f => match func_receiver f with
              | Some r => String.eqb r type_name
              | None => false
              end)
    func_decls.

(** The functions that hand out a value of a type, as a constructor or a
    validating factory would. *)
Definition functions_returning (type_name : string) : list FuncDecl :=
  List.filter
    (fun f => existsb (fun r => String.eqb r type_name
                                || String.eqb r ("*" +:+ type_name))
                      (func_results f))
    func_decls.

End api.


(** ** Predicates on the bytes of a text *)

Module bytes.
Import utf8.

(** Every byte of [s] satisfies [P]. *)
Fixpoint all (P : ascii -> bool) (s : string) : bool :=
  match s with
  | EmptyString => true
  | String c rest => P c && all P rest
  end.

(** A byte that is neither a control character nor one of the HTML
    characters [<], [>], [&]. *)
Definition html_safe (c : ascii) : bool :=
  (0x20 <=? byte c)
  && negb ((byte c =? 60) || (byte c =? 62) || (byte c =? 38)).

(** A byte of the ASCII range. *)
Definition ascii_range (c : ascii) : bool := byte c <? 0x80.

(** A byte outside the ASCII range. *)
Definition high (c : ascii) : bool := 0x80 <=? byte c.

End bytes.

(** ** Reading back one unit of a JSON string *)

Module jsonread.
Import utf8 json.

(** The value of a lower-case hexadecimal digit. *)
Definition unhex (c : ascii) : Z :=
  if byte c <? 58 then byte c - 48 else byte c - 87.

(** The first byte a JSON string literal stands for, and the rest of the
    text: a raw byte, a two-character escape, or [\u00XX]. [None] on
    anything else. *)
Definition read_unit (s : string) : option (ascii * string) :=
  match s with
  | EmptyString => None
  | String "092" EmptyString => None
  | String "092" (String x rest) =>
      if (byte x =? 34) || (byte x =? 92) then Some (x, rest)
      else if byte x =? 98 then Some ("008"%char, rest)
      else if byte x =? 102 then Some ("012"%char, rest)
      else if byte x =? 110 then Some ("010"%char, rest)
      else if byte x =? 114 then Some ("013"%char, rest)
      else if byte x =? 116 then Some ("009"%char, rest)
      else if byte x =? 117 then
        match rest with
        | String "0" (String "0" (String h (String l rest'))) =>
            Some (ascii_of_N (Z.to_N (16 * unhex h + unhex l)), rest')
        | _ => None
        end
      else None
  | String c rest => Some (c, rest)
  end.

End jsonread.

(** * Properties *)

(** Membership of a literal in the range of [int]. *)
Ltac int_literal :=
  unfold GoInt.in_range; split; vm_compute; discriminate.

(** ** The models on concrete inputs *)

Section Examples.
Import GoInt GoError strconv fmt utf8 json http Tutorial2.

Example intDivision_7_2 : intDivision Int64 7 2 = (3, 1, nil).
Proof. reflexivity. Qed.

Example intDivision_neg7_2 : intDivision Int64 (-7) 2 = (-3, -1, nil).
Proof. reflexivity. Qed.

Example intDivision_7_neg2 : intDivision Int32 7 (-2) = (-3, 1, nil).
Proof. reflexivity. Qed.

Example intDivision_7_0 :
  intDivision Int64 7 0 = (0, 0, Some (New "Cannot devide by Zero")).
Proof. reflexivity. Qed.

Example intDivision_MinInt32 :
  intDivision Int32 (-2147483648) (-1) = (-2147483648, 0, nil).
Proof. reflexivity. Qed.

Example main_from_7_2 :
  main_from Int64 7 2 EmptyString
  = Some ("The result of the integer division is 3 with remainder 1" +:+ nl).
Proof. reflexivity. Qed.

Example main_from_7_0 :
  main_from Int64 7 0 EmptyString = Some ("Cannot devide by Zero" +:+ nl).
Proof. reflexivity. Qed.

Example Sprintf_percent :
  Sprintf "%v%% of %v" [Int 50; Str "all"] = Some "50% of all"%string.
Proof. reflexivity. Qed.

Example Sprintf_missing_operand : Sprintf "%v" [] = None.
Proof. reflexivity. Qed.

(** The euro sign, three bytes, is the rune U+20AC. *)
Example DecodeRuneInString_euro :
  DecodeRuneInString (String "226" (String "130" (String "172" "x")))
  = (0x20AC, 3%nat).
Proof. reflexivity. Qed.

(** A continuation byte alone is an encoding error of width 1. *)
Example DecodeRuneInString_stray :
  DecodeRuneInString (String "130" "x") = (RuneError, 1%nat).
Proof. reflexivity. Qed.

(** In [a<b] followed by a double quote and a newline, the HTML
    character, the quote and the newline are escaped. *)
Example appendString_escapes :
  appendString ("a<b" +:+ dq +:+ nl)
  = dq +:+ "a" +:+ bs +:+ "u003cb" +:+ bs +:+ dq +:+ bs +:+ "n" +:+ dq.
Proof. reflexivity. Qed.

(** An invalid byte becomes U+FFFD; U+2028 (bytes E2 80 A8) is escaped. *)
Example appendString_invalid_utf8 :
  appendString (String "255" (String "226" (String "128" (String "168" ""))))
  = dq +:+ bs +:+ "ufffd" +:+ bs +:+ "u2028" +:+ dq.
Proof. reflexivity. Qed.

Example CanonicalMIMEHeaderKey_content_type :
  CanonicalMIMEHeaderKey "content-TYPE" = "Content-Type"%string.
Proof. reflexivity. Qed.

Example CanonicalMIMEHeaderKey_space :
  CanonicalMIMEHeaderKey "content type" = "content type"%string.
Proof. reflexivity. Qed.

(** 0.1, 1e21, the least positive float and 123456789 in their shortest
    form. *)
Example format_g_shortest_tenth :
  format_g_shortest 0x1999999999999a (-56) = "0.1"%string.
Proof. vm_compute. reflexivity. Qed.

Example format_g_shortest_1e21 :
  format_g_shortest 0x1b1ae4d6e2ef50 17 = "1e+21"%string.
Proof. vm_compute. reflexivity. Qed.

Example format_g_shortest_least :
  format_g_shortest 1 (-1074) = "5e-324"%string.
Proof. vm_compute. reflexivity. Qed.

Example format_g_shortest_123456789 :
  format_g_shortest 123456789 0 = "1.23456789e+08"%string.
Proof. vm_compute. reflexivity. Qed.

Example fmt_v_complex :
  fmt_v (Complex128 (SpecFloat.S754_finite false 3 (-1))
                    (SpecFloat.S754_finite true 1 1)) = "(1.5-2i)"%string.
Proof. vm_compute. reflexivity. Qed.

End Examples.

(** ** Integer division *)

Section IntFacts.
Import GoInt.

Lemma wrap_in_range sz x : in_range sz (wrap sz x).
Proof.
  unfold in_range, wrap, MinInt, MaxInt, modulus.
  destruct sz; cbn [bits];
    match goal with |- context [(?a) mod ?m] =>
      pose proof (Z.mod_pos_bound a m ltac:(reflexivity)) end; lia.
Qed.

Lemma wrap_small sz x : in_range sz x -> wrap sz x = x.
Proof.
  unfold in_range, wrap, MinInt, MaxInt, modulus.
  destruct sz; cbn [bits]; intros H; rewrite Z.mod_small; lia.
Qed.

Lemma wrap_congr sz x : (wrap sz x - x) mod modulus sz = 0.
Proof.
  unfold wrap, modulus.
  set (h := 2 ^ (bits sz - 1)). set (m := 2 ^ bits sz).
  assert (Hm : m <> 0) by (subst m; destruct sz; discriminate).
  replace ((x + h) mod m - h - x) with ((x + h) mod m - (x + h)) by lia.
  rewrite (Z.mod_eq (x + h) m Hm).
  replace (x + h - m * ((x + h) / m) - (x + h)) with ((- ((x + h) / m)) * m)
    by lia.
  apply Z.mod_mul; exact Hm.
Qed.

End IntFacts.

Section IntDivisionFacts.
Import GoInt GoError Tutorial2.

Lemma wrap_eq_mod sz x y :
  (x - y) mod modulus sz = 0 -> wrap sz x = wrap sz y.
Proof.
  intros H. unfold wrap. f_equal.
  assert (Hm : modulus sz <> 0) by (destruct sz; discriminate).
  apply Z.mod_divide in H; [| exact Hm]. destruct H as [k Hk].
  replace (x + 2 ^ (bits sz - 1)) with (y + 2 ^ (bits sz - 1) + k * modulus sz)
    by lia.
  apply Z.mod_add; exact Hm.
Qed.

Lemma wrap_wrap_mul_add sz a b c :
  wrap sz (wrap sz (wrap sz a * b) + c) = wrap sz (a * b + c).
Proof.
  apply wrap_eq_mod.
  assert (Hm : modulus sz <> 0) by (destruct sz; discriminate).
  pose proof (wrap_congr sz a) as Ha.
  pose proof (wrap_congr sz (wrap sz a * b)) as Hb.
  apply Z.mod_divide in Ha; [| exact Hm]. destruct Ha as [k Hk].
  apply Z.mod_divide in Hb; [| exact Hm]. destruct Hb as [j Hj].
  apply Z.mod_divide; [exact Hm |].
  exists (j + k * b). lia.
Qed.

Lemma quot_abs_half n d : 2 <= Z.abs d -> 2 * Z.abs (Z.quot n d) <= Z.abs n.
Proof.
  intros Hd. rewrite <- Z.quot_abs by lia.
  rewrite Z.quot_div_nonneg by lia.
  pose proof (Z.mul_div_le (Z.abs n) (Z.abs d) ltac:(lia)).
  pose proof (Z.div_pos (Z.abs n) (Z.abs d) ltac:(lia) ltac:(lia)).
  nia.
Qed.

(** The truncated quotient of two [int]s fits in an [int], except for
    [MinInt / -1]. *)
Lemma quot_in_range sz n d :
  in_range sz n -> in_range sz d -> d <> 0 ->
  ~ (n = MinInt sz /\ d = -1) -> in_range sz (Z.quot n d).
Proof.
  intros Hn Hd Hd0 Hov.
  destruct (Z.eq_dec d 1) as [-> | Hd1]; [rewrite Z.quot_1_r; exact Hn |].
  destruct (Z.eq_dec d (-1)) as [-> | Hdm1].
  - change (-1) with (- (1)). rewrite Z.quot_opp_r, Z.quot_1_r by lia.
    unfold in_range, MinInt, MaxInt in *. lia.
  - pose proof (quot_abs_half n d ltac:(lia)).
    unfold in_range, MinInt, MaxInt in *.
    destruct sz; cbn [bits] in *; lia.
Qed.

Lemma rem_in_range sz n d :
  in_range sz d -> d <> 0 -> in_range sz (Z.rem n d).
Proof.
  intros Hd Hd0. pose proof (Z.rem_bound_abs n d Hd0).
  unfold in_range, MinInt, MaxInt in *. lia.
Qed.

Lemma intDivision_nonzero_eq sz n d :
  d <> 0 -> intDivision sz n d = (wrap sz (Z.quot n d), Z.rem n d, nil).
Proof.
  intros Hd. unfold intDivision.
  destruct (Z.eqb_spec d 0) as [E | _]; [contradiction | reflexivity].
Qed.

End IntDivisionFacts.

Section IntDivisionSpec.
Import GoInt GoError Tutorial2.

(** C1. For every pair of [int] inputs with a nonzero denominator,
    [intDivision] returns a nil error together with Go's
    [numerator / denominator] and [numerator % denominator]: the remainder
    is the remainder of the division truncated toward zero, and the
    quotient is the truncated quotient, represented in an [int]; it is
    the mathematical truncated quotient whenever that fits, that is for
    every input but [MinInt / -1], where Go's quotient is [MinInt] and the
    remainder is 0. Both results are [int] values. *)
Theorem intDivision_nonzero_correct sz n d :
  in_range sz n -> in_range sz d -> d <> 0 ->
  intDivision sz n d = (wrap sz (Z.quot n d), Z.rem n d, nil) /\
  in_range sz (wrap sz (Z.quot n d)) /\
  in_range sz (Z.rem n d) /\
  (~ (n = MinInt sz /\ d = -1) -> wrap sz (Z.quot n d) = Z.quot n d) /\
  (n = MinInt sz -> d = -1 ->
   wrap sz (Z.quot n d) = MinInt sz /\ Z.rem n d = 0).
Proof.
  intros Hn Hd Hd0. repeat split.
  - apply intDivision_nonzero_eq; exact Hd0.
  - apply wrap_in_range.
  - apply wrap_in_range.
  - apply (rem_in_range sz n d Hd Hd0).
  - apply (rem_in_range sz n d Hd Hd0).
  - intros Hov. apply wrap_small. apply quot_in_range; assumption.
  - subst n d. destruct sz; reflexivity.
  - subst n d. destruct sz; reflexivity.
Qed.

Lemma intDivision_nonzero_correct_witness :
  in_range Int64 (-7) /\ in_range Int64 2 /\ 2 <> 0 /\
  intDivision Int64 (-7) 2 = (-3, -1, nil).
Proof.
  assert (Hn : in_range Int64 (-7)) by int_literal.
  assert (Hd : in_range Int64 2) by int_literal.
  assert (Hd0 : 2 <> 0) by lia.
  split; [exact Hn |]. split; [exact Hd |]. split; [exact Hd0 |].
  exact (proj1 (intDivision_nonzero_correct Int64 (-7) 2 Hn Hd Hd0)).
Defined.

(** C2. [intDivision] returns a non-nil error if and only if the
    denominator is zero. *)
Theorem intDivision_error_iff_zero sz n d :
  snd (intDivision sz n d) <> nil <-> d = 0.
Proof.
  unfold intDivision. destruct (Z.eqb_spec d 0) as [E | E]; cbn.
  - split; [intros _; exact E | intros _; discriminate].
  - split; [intros H; contradiction H; reflexivity | intros H; contradiction].
Qed.

(** C7. When the denominator is zero, [intDivision] returns quotient 0,
    remainder 0 and an error whose message is exactly
    "Cannot devide by Zero". *)
Theorem intDivision_zero_denominator sz n :
  exists err,
    intDivision sz n 0 = (0, 0, Some err) /\
    Error err = "Cannot devide by Zero"%string.
Proof. exists (New "Cannot devide by Zero"). split; reflexivity. Qed.

(** C8, as the code has it. For every numerator and every nonzero
    denominator the results [q], [r] of [intDivision] satisfy
    [|r| < |d|], [r] is zero or has the sign of the numerator, and
    [n = q*d + r] holds in Go's own [int] arithmetic (with wrap-around);
    over the mathematical integers [n = q*d + r] holds for every input
    except [n = MinInt], [d = -1], where the quotient wraps to [MinInt]
    and the remainder is 0. *)
Theorem intDivision_quotient_remainder sz n d :
  in_range sz n -> in_range sz d -> d <> 0 ->
  let '(q, r, _) := intDivision sz n d in
  add sz (mul sz q d) r = n /\
  Z.abs r < Z.abs d /\
  (r = 0 \/ Z.sgn r = Z.sgn n) /\
  (~ (n = MinInt sz /\ d = -1) -> n = q * d + r) /\
  (n = MinInt sz -> d = -1 -> q = MinInt sz /\ r = 0).
Proof.
  intros Hn Hd Hd0. rewrite (intDivision_nonzero_eq sz n d Hd0).
  split; [| split; [| split; [| split]]].
  - unfold add, mul. rewrite wrap_wrap_mul_add.
    replace (Z.quot n d * d + Z.rem n d) with n
      by (pose proof (Z.quot_rem' n d); lia).
    apply wrap_small; exact Hn.
  - apply Z.rem_bound_abs; exact Hd0.
  - destruct (Z.eq_dec (Z.rem n d) 0) as [E | E]; [left; exact E |].
    right. apply Z.rem_sign_nz; assumption.
  - intros Hov. rewrite wrap_small by (apply quot_in_range; assumption).
    pose proof (Z.quot_rem' n d). lia.
  - intros -> ->. destruct sz; split; reflexivity.
Qed.

Lemma intDivision_quotient_remainder_witness :
  let '(q, r, _) := intDivision Int64 (-7) 2 in
  add Int64 (mul Int64 q 2) r = -7 /\
  Z.abs r < Z.abs 2 /\
  (r = 0 \/ Z.sgn r = Z.sgn (-7)) /\
  (~ (-7 = MinInt Int64 /\ 2 = -1) -> -7 = q * 2 + r) /\
  (-7 = MinInt Int64 -> 2 = -1 -> q = MinInt Int64 /\ r = 0).
Proof.
  apply (intDivision_quotient_remainder Int64 (-7) 2).
  - int_literal.
  - int_literal.
  - lia.
Defined.

(** C8, as the claim states it, fails at the one quotient that
    overflows: for the 64-bit inputs [MinInt] and [-1], both in range and
    the denominator nonzero, [intDivision] returns the quotient [MinInt]
    and the remainder 0, and [MinInt * -1 + 0] is not [MinInt]. *)
Lemma intDivision_identity_fails_at_MinInt :
  in_range Int64 (-9223372036854775808) /\
  in_range Int64 (-1) /\ -1 <> 0 /\
  intDivision Int64 (-9223372036854775808) (-1)
    = (-9223372036854775808, 0, nil) /\
  ~ (let '(q, r, _) := intDivision Int64 (-9223372036854775808) (-1) in
     -9223372036854775808 = q * -1 + r /\
     Z.abs r < Z.abs (-1) /\
     (r = 0 \/ Z.sgn r = Z.sgn (-9223372036854775808))).
Proof.
  split; [int_literal |]. split; [int_literal |]. split; [lia |].
  split; [reflexivity |].
  cbn. intros [H _]. discriminate H.
Qed.

End IntDivisionSpec.

Section Tutorial2Main.
Import GoInt GoError fmt Tutorial2.

(** C4. [main] inspects the results of [intDivision] once, in a [switch]
    whose cases exclude one another, and writes exactly one message: the
    error's message when the error is non-nil; the quotient-only message
    when the error is nil and the remainder is 0; the message with
    quotient and remainder otherwise. With the program's operands 10 and
    2 the quotient-only case runs and prints the result 5. *)
Theorem main_switch_one_branch sz n d out :
  let '(result, reminder, err) := intDivision sz n d in
  (forall e, err = Some e ->
     main_from sz n d out = Some (out +:+ Error e +:+ nl)) /\
  (err = nil -> reminder = 0 ->
     main_from sz n d out
     = Some (out +:+ "The result of the integer division is "
                 +:+ pretty result +:+ nl)) /\
  (err = nil -> reminder <> 0 ->
     main_from sz n d out
     = Some (out +:+ "The result of the integer division is "
                 +:+ pretty result +:+ " with remainder "
                 +:+ pretty reminder +:+ nl)) /\
  main sz
  = Some ("Hello World" +:+ nl
          +:+ "The result of the integer division is 5" +:+ nl).
Proof.
  unfold main_from.
  destruct (intDivision sz n d) as [[result reminder] err] eqn:E.
  repeat split.
  - intros e ->. unfold intDivision in E.
    destruct (d =? 0); [| discriminate E]. injection E as <- <- <-.
    reflexivity.
  - intros -> ->. reflexivity.
  - intros -> Hr. destruct (Z.eqb_spec reminder 0) as [E0 | _];
      [contradiction | reflexivity].
  - destruct sz; reflexivity.
Qed.

End Tutorial2Main.

Section JsonFacts.
Import utf8 json.

Lemma DecodeRuneInString_size c rest r size :
  DecodeRuneInString (String c rest) = (r, size) -> (1 <= size)%nat.
Proof.
  unfold DecodeRuneInString. intros H.
  repeat case_match; simplify_eq; lia.
Qed.

Lemma length_drop_le n s :
  (String.length (drop n s) <= String.length s)%nat.
Proof.
  revert s. induction n as [| n IH]; intros [| c s]; cbn; try lia.
  specialize (IH s). lia.
Qed.

Lemma length_drop_cons n c s :
  (1 <= n)%nat ->
  (String.length (drop n (String c s)) <= String.length s)%nat.
Proof.
  destruct n as [| n]; [lia |]. intros _. cbn. apply length_drop_le.
Qed.

(** The loop of [appendString] does not depend on the fuel once there is
    one unit of it per byte of the input: the Go loop terminates, and
    [appendString] computes its result. *)
Lemma appendString_loop_fuel fuel1 fuel2 src :
  (String.length src <= fuel1)%nat -> (String.length src <= fuel2)%nat ->
  appendString_loop fuel1 src = appendString_loop fuel2 src.
Proof.
  revert fuel2 src.
  induction fuel1 as [| f1 IH]; intros fuel2 [| c rest] H1 H2;
    cbn [String.length] in *.
  - destruct fuel2; reflexivity.
  - lia.
  - destruct fuel2; reflexivity.
  - destruct fuel2 as [| f2]; [lia |].
    cbn [appendString_loop].
    destruct (byte c <? RuneSelf).
    + rewrite (IH f2 rest) by lia. reflexivity.
    + destruct (DecodeRuneInString (String c rest)) as [r size] eqn:E.
      pose proof (DecodeRuneInString_size _ _ _ _ E) as Hsz.
      pose proof (length_drop_cons size c rest Hsz) as Hd.
      rewrite (IH f2 rest) by lia.
      rewrite (IH f2 (drop size (String c rest))) by lia.
      reflexivity.
Qed.

End JsonFacts.

Section JsonSafeStrings.
Import utf8 json.

Lemma appendString_loop_safe fuel s :
  (String.length s <= fuel)%nat -> all_htmlSafe s = true ->
  appendString_loop fuel s = s.
Proof.
  revert s. induction fuel as [| fuel IH]; intros [| c rest] Hlen Hsafe;
    cbn in *; try reflexivity; try lia.
  apply andb_true_iff in Hsafe as [Hc Hrest].
  assert (Hlt : (byte c <? RuneSelf) = true).
  { unfold htmlSafeSet in Hc. unfold RuneSelf.
    apply andb_true_iff in Hc as [Hc _].
    apply andb_true_iff in Hc as [_ Hc]. exact Hc. }
  rewrite Hlt, Hc, IH by (assumption || lia). reflexivity.
Qed.

(** A string without control characters, quotes, backslashes, HTML
    characters and non-ASCII bytes is encoded as itself between double
    quotes. *)
Lemma appendString_safe s :
  all_htmlSafe s = true -> appendString s = dq +:+ s +:+ dq.
Proof.
  intros H. unfold appendString.
  rewrite appendString_loop_safe by (exact H || lia). reflexivity.
Qed.

End JsonSafeStrings.

Section ApiSpec.
Import GoError fmt http httptest callrecorder json api.

Variable DetectContentType : string -> string.

Local Instance recorder : ResponseWriter ResponseRecorder :=
  Recorder_ResponseWriter DetectContentType.

(** What [writeError] does to a recorder whose header is not written yet,
    for a code that [WriteHeader] accepts. *)
Lemma writeError_recorder (rw : ResponseRecorder) message code :
  wroteHeader rw = false -> 100 <= code <= 999 ->
  writeError rw message code
  = Some {| Code := code;
            HeaderMap :=
              <["Content-Type"%string := ["application/json"%string]]>
                (HeaderMap rw);
            Body :=
              Body rw
              +:+ Marshal_Error {| Error.Code := code;
                                   Error.Message := message |} +:+ nl;
            wroteHeader := true;
            snapHeader :=
              Some (<["Content-Type"%string := ["application/json"%string]]>
                      (HeaderMap rw)) |}.
Proof.
  intros Hfresh Hcode.
  assert (Hok : checkWriteHeaderCode code = true).
  { unfold checkWriteHeaderCode.
    destruct (Z.ltb_spec code 100); [lia |].
    destruct (Z.gtb_spec code 999); [lia | reflexivity]. }
  unfold writeError, Encode_Error. cbn.
  unfold Recorder_WriteHeader. cbn. rewrite Hfresh, Hok. cbn.
  reflexivity.
Qed.

(** What [writeError] asks of a writer that accepts every call. *)
Lemma writeError_calls (w : CallRecorder) message code :
  writeError w message code
  = Some {| header :=
              <["Content-Type"%string := ["application/json"%string]]>
                (header w);
            calls :=
              calls w
              ++ [ CallWriteHeader code
                     (<["Content-Type"%string := ["application/json"%string]]>
                        (header w));
                   CallWrite
                     (Marshal_Error {| Error.Code := code;
                                       Error.Message := message |}
                      +:+ nl) ] |}.
Proof.
  unfold writeError, Encode_Error. cbn. rewrite <- app_assoc. reflexivity.
Qed.

(** C3. For every message and every status code, [writeError] serializes
    the error to JSON. Whatever the arguments, it sets the header
    Content-Type to [application/json], then calls [WriteHeader] with the
    [code] argument, then writes, in one [Write], the JSON encoding of
    [Error{Code: code, Message: message}] as [json.Encoder] emits it (the
    object followed by a newline), and nothing else. On an in-memory
    response whose header is not written yet, and for a code of three
    digits (the ones [WriteHeader] accepts), the call returns and the
    response has that body, that header and that status code. *)
Theorem writeError_serializes_error message code :
  (forall w : CallRecorder,
     writeError w message code
     = Some {| header :=
                 <["Content-Type"%string := ["application/json"%string]]>
                   (header w);
               calls :=
                 calls w
                 ++ [ CallWriteHeader code
                        (<["Content-Type"%string
                           := ["application/json"%string]]> (header w));
                      CallWrite
                        (("{" +:+ dq +:+ "Code" +:+ dq +:+ ":"
                          +:+ pretty code +:+ "," +:+ dq +:+ "Message"
                          +:+ dq +:+ ":" +:+ appendString message +:+ "}")
                         +:+ nl) ] |}) /\
  (forall rw : ResponseRecorder,
     wroteHeader rw = false -> 100 <= code <= 999 ->
     exists rw',
       writeError rw message code = Some rw' /\
       Body rw'
       = Body rw
         +:+ Marshal_Error {| Error.Code := code; Error.Message := message |}
         +:+ nl /\
       snapHeader rw' = Some (HeaderMap rw') /\
       HeaderMap rw' !! "Content-Type"%string
       = Some ["application/json"%string] /\
       Header_Get "Content-type" (HeaderMap rw')
       = "application/json"%string /\
       wroteHeader rw' = true /\
       Code rw' = code).
Proof.
  split.
  - intros w. apply writeError_calls.
  - intros rw Hfresh Hcode. eexists. split.
    + apply writeError_recorder; assumption.
    + cbn. split; [reflexivity |]. split; [reflexivity |].
      split; [apply lookup_insert_eq |]. split; [| split; reflexivity].
      unfold Header_Get.
      change (CanonicalMIMEHeaderKey "Content-type")
        with "Content-Type"%string.
      rewrite lookup_insert_eq. reflexivity.
Qed.

(** C9. For every error passed to it, [RequestErrorHandler] answers with
    status 400 and a body that is the JSON encoding of an [Error] holding
    that error's message (verbatim between double quotes when the message
    needs no escape); [InternalErrorHandler] always answers with status
    500 and the message "An Unexpected error ocurred". Neither takes a
    request: the answer depends on nothing else. The first two parts say
    what the handlers ask of any writer, the last two what an in-memory
    response whose header is not written yet holds afterwards. *)
Theorem error_handlers_respond (e : errorString) :
  (forall w : CallRecorder,
     exists h,
       RequestErrorHandler w (Some e)
       = Some {| header := h;
                 calls :=
                   calls w
                   ++ [ CallWriteHeader 400 h;
                        CallWrite
                          (Marshal_Error {| Error.Code := 400;
                                            Error.Message := Error e |}
                           +:+ nl) ] |}) /\
  (forall w : CallRecorder,
     exists h,
       InternalErrorHandler w
       = Some {| header := h;
                 calls :=
                   calls w
                   ++ [ CallWriteHeader 500 h;
                        CallWrite
                          (("{" +:+ dq +:+ "Code" +:+ dq +:+ ":500," +:+ dq
                            +:+ "Message" +:+ dq +:+ ":" +:+ dq
                            +:+ "An Unexpected error ocurred" +:+ dq +:+ "}")
                           +:+ nl) ] |}) /\
  (forall rw : ResponseRecorder,
     wroteHeader rw = false ->
     exists rw',
       RequestErrorHandler rw (Some e) = Some rw' /\
       Code rw' = 400 /\
       Body rw'
       = Body rw
         +:+ Marshal_Error {| Error.Code := 400; Error.Message := Error e |}
         +:+ nl /\
       (all_htmlSafe (Error e) = true ->
        Body rw'
        = Body rw
          +:+ ("{" +:+ dq +:+ "Code" +:+ dq +:+ ":400," +:+ dq +:+ "Message"
               +:+ dq +:+ ":" +:+ (dq +:+ Error e +:+ dq) +:+ "}")
          +:+ nl)) /\
  (forall rw : ResponseRecorder,
     wroteHeader rw = false ->
     exists rw',
       InternalErrorHandler rw = Some rw' /\
       Code rw' = 500 /\
       Body rw'
       = Body rw
         +:+ ("{" +:+ dq +:+ "Code" +:+ dq +:+ ":500," +:+ dq +:+ "Message"
              +:+ dq +:+ ":" +:+ dq +:+ "An Unexpected error ocurred" +:+ dq
              +:+ "}") +:+ nl).
Proof.
  split; [| split; [| split]].
  - intros w. eexists. unfold RequestErrorHandler. cbn.
    apply writeError_calls.
  - intros w. eexists. unfold InternalErrorHandler.
    rewrite writeError_calls. reflexivity.
  - intros rw Hfresh. eexists. split.
    + unfold RequestErrorHandler. cbn.
      apply writeError_recorder; [exact Hfresh | unfold StatusBadRequest; lia].
    + cbn. split; [reflexivity |]. split; [reflexivity |].
      intros Hsafe. unfold Marshal_Error. cbn.
      rewrite (appendString_safe _ Hsafe). reflexivity.
  - intros rw Hfresh. eexists. split.
    + unfold InternalErrorHandler.
      apply writeError_recorder;
        [exact Hfresh | unfold StatusInternalServerError; lia].
    + cbn. split; reflexivity.
Qed.

End ApiSpec.

Section ApiExamples.
Import GoError fmt http httptest callrecorder json api.

(** The response to a request without user name, on a fresh recorder. *)
Lemma writeError_serializes_error_witness :
  exists rw',
    writeError (H := Recorder_ResponseWriter (fun _ => EmptyString))
      NewRecorder "missing username" 400 = Some rw' /\
    Body rw'
    = "{" +:+ dq +:+ "Code" +:+ dq +:+ ":400," +:+ dq +:+ "Message" +:+ dq
          +:+ ":" +:+ dq +:+ "missing username" +:+ dq +:+ "}" +:+ nl /\
    Header_Get "Content-type" (HeaderMap rw') = "application/json"%string /\
    Code rw' = 400.
Proof.
  destruct (proj2 (writeError_serializes_error (fun _ => EmptyString)
                     "missing username" 400)
              NewRecorder eq_refl ltac:(lia))
    as [rw' [Hrun [Hbody [_ [_ [Hget [_ Hcode]]]]]]].
  exists rw'. split; [exact Hrun |]. split; [exact Hbody |].
  split; [exact Hget | exact Hcode].
Defined.

Lemma error_handlers_respond_witness :
  exists rw',
    InternalErrorHandler (H := Recorder_ResponseWriter (fun _ => EmptyString))
      NewRecorder = Some rw' /\
    Code rw' = 500.
Proof.
  destruct (error_handlers_respond (fun _ => EmptyString) (New "unused"))
    as [_ [_ [_ Hinternal]]].
  destruct (Hinternal NewRecorder eq_refl) as [rw' [Hrun [Hcode _]]].
  exists rw'. split; [exact Hrun | exact Hcode].
Defined.

End ApiExamples.

Section ApiDeclarations.
Import api.

(** C5, as the code has it. The API fragment defines exactly three struct
    shapes, [CoinBalanceParams], [CoinBalanceResponse] and [Error]; every
    field of each is public, none has a method, and no function of the
    package returns one of them (no constructor, no validation). *)
Theorem api_struct_shapes :
  List.map struct_name struct_decls
  = ["CoinBalanceParams"; "CoinBalanceResponse"; "Error"]%string /\
  List.length struct_decls = 3%nat /\
  (forall s f, In s struct_decls -> In f (struct_fields s) ->
     exported (field_name f) = true) /\
  (forall s, In s struct_decls ->
     methods_of (struct_name s) = [] /\
     functions_returning (struct_name s) = []).
Proof.
  split; [reflexivity |]. split; [reflexivity |]. split.
  - intros s f Hs Hf. cbn in Hs.
    repeat (destruct Hs as [<- | Hs];
            [cbn in Hf; intuition (subst; reflexivity) |]).
    contradiction.
  - intros s Hs. cbn in Hs.
    repeat (destruct Hs as [<- | Hs]; [split; reflexivity |]).
    contradiction.
Qed.

(** C5, as the claim states it, fails: the struct shapes are not two. *)
Lemma api_struct_shapes_not_two : List.length struct_decls <> 2%nat.
Proof. discriminate. Qed.

End ApiDeclarations.

Section Tutorial1Spec.
Import fmt Tutorial1.

(** The nine lines the statements of [main] print, in order. *)
Lemma main_body_prints :
  snd <$> exec main_body (∅, EmptyString)
  = Some ("Hello, World!" +:+ nl +:+ "10" +:+ nl +:+ "10.5" +:+ nl
          +:+ "10" +:+ nl +:+ "10" +:+ nl +:+ "true" +:+ nl
          +:+ "(10+10i)" +:+ nl +:+ "97" +:+ nl +:+ "0" +:+ nl).
Proof. vm_compute. reflexivity. Qed.

(** Without its last statement the body builds, runs and prints the
    nine lines. *)
Lemma main_body_without_newVar :
  go_run (removelast main_body)
  = Exited ("Hello, World!" +:+ nl +:+ "10" +:+ nl +:+ "10.5" +:+ nl
            +:+ "10" +:+ nl +:+ "10" +:+ nl +:+ "true" +:+ nl
            +:+ "(10+10i)" +:+ nl +:+ "97" +:+ nl +:+ "0" +:+ nl).
Proof. vm_compute. reflexivity. Qed.

(** C6, on the code: [go run] of tutorial_1 prints nothing. The last
    statement of [main] declares [newVar] and nothing reads it, so the
    compiler rejects the file ("declared and not used") and no program
    runs. *)
Theorem main_is_rejected : Tutorial1.main = BuildFailed ["newVar"%string].
Proof. vm_compute. reflexivity. Qed.

End Tutorial1Spec.

(** * Further properties of the code *)

(** ** [intDivision] as truncated division *)

Section IntDivisionLaws.
Import GoInt GoError Tutorial2.

Lemma quot_abs_le n d : d <> 0 -> Z.abs (Z.quot n d) <= Z.abs n.
Proof.
  intros Hd. rewrite <- Z.quot_abs by exact Hd.
  rewrite Z.quot_div_nonneg by lia.
  apply Z.div_le_upper_bound; nia.
Qed.

Lemma in_range_opp_quot sz n d :
  in_range sz n -> n <> MinInt sz -> d <> 0 -> in_range sz (- Z.quot n d).
Proof.
  intros Hn Hmin Hd. pose proof (quot_abs_le n d Hd).
  unfold in_range, MinInt, MaxInt in *. lia.
Qed.

Lemma in_range_quot_no_MinInt sz n d :
  in_range sz n -> n <> MinInt sz -> d <> 0 -> in_range sz (Z.quot n d).
Proof.
  intros Hn Hmin Hd. pose proof (quot_abs_le n d Hd).
  unfold in_range, MinInt, MaxInt in *. lia.
Qed.

Lemma intDivision_characterised sz n d q r :
  in_range sz q -> d <> 0 ->
  n = q * d + r -> Z.abs r < Z.abs d -> (r = 0 \/ Z.sgn r = Z.sgn n) ->
  intDivision sz n d = (q, r, nil).
Proof.
  intros Hq Hd0 Hid Hr Hsgn.
  assert (Hrem : Zquot.Remainder n d r) by (unfold Zquot.Remainder; lia).
  assert (Hid' : n = d * q + r) by lia.
  rewrite (intDivision_nonzero_eq sz n d Hd0).
  rewrite <- (Zquot_unique_full n d q r Hrem Hid').
  rewrite <- (Zrem_unique_full n d q r Hrem Hid').
  rewrite (wrap_small sz q Hq). reflexivity.
Qed.

(** X1. [intDivision] is determined by the division identity: whenever
    [int]s [q] and [r] satisfy [n = q*d + r] with [|r| < |d|] and [r]
    zero or of the sign of [n], the call [intDivision(n, d)] returns
    exactly [q], [r] and a nil error. *)
Theorem intDivision_unique sz n d q r :
  in_range sz n -> in_range sz d -> in_range sz q -> d <> 0 ->
  n = q * d + r -> Z.abs r < Z.abs d -> (r = 0 \/ Z.sgn r = Z.sgn n) ->
  intDivision sz n d = (q, r, nil).
Proof.
  intros _ _ Hq Hd0 Hid Hr Hsgn.
  apply intDivision_characterised; assumption.
Qed.

Lemma intDivision_unique_witness :
  intDivision Int64 (-17) 5 = (-3, -2, nil).
Proof.
  apply (intDivision_unique Int64 (-17) 5 (-3) (-2));
    try int_literal; try lia.
Defined.

(** X2. Exact multiples divide exactly: when [a], [d] and the product
    [a*d] are [int]s and [d] is not zero, [intDivision(a*d, d)] returns
    [a] with remainder 0 and a nil error. *)
Theorem intDivision_of_multiple sz a d :
  in_range sz a -> in_range sz d -> in_range sz (a * d) -> d <> 0 ->
  intDivision sz (a * d) d = (a, 0, nil).
Proof.
  intros Ha Hd Had Hd0.
  apply intDivision_characterised; try assumption; try lia.
Qed.

Lemma intDivision_of_multiple_witness :
  intDivision Int32 (-6 * 7) 7 = (-6, 0, nil).
Proof.
  apply (intDivision_of_multiple Int32 (-6) 7); try int_literal; lia.
Defined.

(** X3. Truncation is symmetric under negation: for operands other than
    [MinInt], negating the numerator negates quotient and remainder,
    negating the denominator negates the quotient only, and negating both
    negates the remainder only. (Division rounding toward minus infinity
    would not have this symmetry.) *)
Theorem intDivision_negation sz n d :
  in_range sz n -> in_range sz d -> n <> MinInt sz -> d <> MinInt sz ->
  d <> 0 ->
  let '(q, r, _) := intDivision sz n d in
  intDivision sz (- n) d = (- q, - r, nil) /\
  intDivision sz n (- d) = (- q, r, nil) /\
  intDivision sz (- n) (- d) = (q, - r, nil).
Proof.
  intros Hn Hd Hn' Hd' Hd0.
  assert (Hq : in_range sz (Z.quot n d))
    by (apply in_range_quot_no_MinInt; assumption).
  assert (Hq' : in_range sz (- Z.quot n d))
    by (apply in_range_opp_quot; assumption).
  rewrite !intDivision_nonzero_eq by lia.
  rewrite (Z.quot_opp_opp n d), (Z.rem_opp_opp n d) by exact Hd0.
  rewrite (Z.quot_opp_l n d), (Z.rem_opp_l n d) by exact Hd0.
  rewrite (Z.quot_opp_r n d), (Z.rem_opp_r n d) by exact Hd0.
  rewrite !wrap_small by assumption.
  split; [reflexivity |]. split; reflexivity.
Qed.

Lemma intDivision_negation_witness :
  intDivision Int64 (- 7) 2 = (- 3, - 1, nil) /\
  intDivision Int64 7 (- 2) = (- 3, 1, nil) /\
  intDivision Int64 (- 7) (- 2) = (3, - 1, nil).
Proof.
  apply (intDivision_negation Int64 7 2);
    try int_literal; try discriminate.
Defined.

(** X4. The quotient is never larger in magnitude than the numerator
    (leaving out the overflowing [MinInt / -1]), and it is 0 exactly when
    the numerator is smaller in magnitude than the denominator; the
    remainder is then the numerator itself. *)
Theorem intDivision_small_quotient sz n d :
  in_range sz n -> in_range sz d -> d <> 0 ->
  let '(q, r, _) := intDivision sz n d in
  (~ (n = MinInt sz /\ d = -1) -> Z.abs q <= Z.abs n) /\
  (q = 0 <-> Z.abs n < Z.abs d) /\
  (Z.abs n < Z.abs d -> r = n).
Proof.
  intros Hn Hd Hd0. rewrite (intDivision_nonzero_eq sz n d Hd0).
  split; [| split].
  - intros Hov. rewrite wrap_small by (apply quot_in_range; assumption).
    apply quot_abs_le; exact Hd0.
  - destruct (Z.eq_dec n (MinInt sz)) as [Hmin | Hmin].
    + destruct (Z.eq_dec d (-1)) as [-> | Hd1].
      * subst n.
        destruct sz; split; intros H; vm_compute in H; discriminate H.
      * rewrite wrap_small by (apply quot_in_range; tauto).
        apply Z.quot_small_iff; exact Hd0.
    + rewrite wrap_small by (apply quot_in_range; tauto).
      apply Z.quot_small_iff; exact Hd0.
  - intros Hlt. apply Z.rem_small_iff; assumption.
Qed.

Lemma intDivision_small_quotient_witness :
  let '(q, r, _) := intDivision Int64 (-3) 5 in
  (~ (-3 = MinInt Int64 /\ 5 = -1) -> Z.abs q <= Z.abs (-3)) /\
  (q = 0 <-> Z.abs (-3) < Z.abs 5) /\
  (Z.abs (-3) < Z.abs 5 -> r = -3).
Proof.
  apply (intDivision_small_quotient Int64 (-3) 5); try int_literal; lia.
Defined.

(** X5. For a positive denominator the quotient is monotone in the
    numerator. *)
Theorem intDivision_monotone sz n1 n2 d :
  in_range sz n1 -> in_range sz n2 -> in_range sz d -> 0 < d ->
  n1 <= n2 ->
  fst (fst (intDivision sz n1 d)) <= fst (fst (intDivision sz n2 d)).
Proof.
  intros H1 H2 Hd Hpos Hle.
  rewrite !intDivision_nonzero_eq by lia. cbn [fst].
  rewrite !wrap_small by (apply quot_in_range; try assumption; lia).
  apply Z.quot_le_mono; assumption.
Qed.

Lemma intDivision_monotone_witness :
  fst (fst (intDivision Int64 (-7) 2)) <= fst (fst (intDivision Int64 9 2)).
Proof.
  apply (intDivision_monotone Int64 (-7) 9 2); try int_literal; lia.
Defined.

(** X6. The result does not depend on the width of [int], with one
    exception: for operands that fit in 32 bits, the 32-bit and the
    64-bit [intDivision] agree unless the call is [MinInt32 / -1], where
    the 32-bit quotient wraps to [MinInt32] and the 64-bit quotient is
    2147483648. *)
Theorem intDivision_width_independent n d :
  in_range Int32 n -> in_range Int32 d ->
  (~ (n = MinInt Int32 /\ d = -1) ->
   intDivision Int32 n d = intDivision Int64 n d) /\
  intDivision Int32 (MinInt Int32) (-1) = (MinInt Int32, 0, nil) /\
  intDivision Int64 (MinInt Int32) (-1) = (2147483648, 0, nil).
Proof.
  intros Hn Hd. split; [| split; reflexivity].
  intros Hov. unfold intDivision. destruct (d =? 0) eqn:E; [reflexivity |].
  apply Z.eqb_neq in E. unfold quo.
  assert (Hq : in_range Int32 (Z.quot n d))
    by (apply quot_in_range; assumption).
  rewrite (wrap_small Int32 _ Hq).
  rewrite (wrap_small Int64) by
    (unfold in_range, MinInt, MaxInt in *; cbn [bits] in *; lia).
  reflexivity.
Qed.

Lemma intDivision_width_independent_witness :
  intDivision Int32 (-7) 2 = intDivision Int64 (-7) 2.
Proof.
  apply (intDivision_width_independent (-7) 2); try int_literal.
  intros [H _]. discriminate H.
Defined.

End IntDivisionLaws.

(** ** The [switch] of tutorial_2's [main], read off the operands *)

Section Tutorial2Cases.
Import GoInt GoError fmt Tutorial2.

(** X7. Which line [main] prints is decided by the operands alone: the
    error message when the denominator is 0; the quotient-only line when
    the denominator is not 0 and divides the numerator; the line with
    quotient and remainder otherwise. In every case the call of [Printf]
    succeeds and one line is appended to what was printed before. *)
Theorem main_from_by_operands sz n d out :
  (d = 0 ->
   main_from sz n d out = Some (out +:+ "Cannot devide by Zero" +:+ nl)) /\
  (d <> 0 -> (d | n) ->
   main_from sz n d out
   = Some (out +:+ "The result of the integer division is "
               +:+ pretty (quo sz n d) +:+ nl)) /\
  (d <> 0 -> ~ (d | n) ->
   main_from sz n d out
   = Some (out +:+ "The result of the integer division is "
               +:+ pretty (quo sz n d) +:+ " with remainder "
               +:+ pretty (Z.rem n d) +:+ nl)).
Proof.
  split; [| split].
  - intros ->. reflexivity.
  - intros Hd Hdiv. unfold main_from.
    rewrite (intDivision_nonzero_eq sz n d Hd).
    apply Z.rem_divide in Hdiv; [| exact Hd]. rewrite Hdiv. reflexivity.
  - intros Hd Hdiv. unfold main_from.
    rewrite (intDivision_nonzero_eq sz n d Hd).
    destruct (Z.eqb_spec (Z.rem n d) 0) as [E | _]; [| reflexivity].
    exfalso. apply Hdiv. apply Z.rem_divide; assumption.
Qed.

End Tutorial2Cases.

(** ** [Printf] with a message as its format *)

Section PrintfVerbatim.
Import fmt.





End PrintfVerbatim.

(** ** [writeError] on a response: repeated calls, bad codes, headers *)

Section ApiResponses.
Import GoError fmt http httptest callrecorder json api.

Variable DetectContentType : string -> string.

Local Instance response_recorder : ResponseWriter ResponseRecorder :=
  recorder DetectContentType.

Lemma writeError_recorder_written (rw : ResponseRecorder) message code :
  wroteHeader rw = true ->
  writeError rw message code
  = Some {| Code := Code rw;
            HeaderMap :=
              <["Content-Type"%string := ["application/json"%string]]>
                (HeaderMap rw);
            Body :=
              Body rw
              +:+ Marshal_Error {| Error.Code := code;
                                   Error.Message := message |} +:+ nl;
            wroteHeader := true;
            snapHeader := snapHeader rw |}.
Proof.
  intros Hwrote. unfold writeError, Encode_Error. cbn.
  unfold Recorder_WriteHeader. cbn. rewrite Hwrote. cbn.
  unfold Recorder_Write, Recorder_writeHeader, Recorder_WriteHeader. cbn.
  repeat (rewrite Hwrote; cbn). reflexivity.
Qed.

(** X9. Once the header of a response is written, [writeError] can no
    longer change the reply's status or the headers that were sent: for
    every message and every code, even one [WriteHeader] would refuse, the
    call returns, the status and the sent headers stay as they were, and
    the JSON document (which names the new code) is appended to the
    body. *)
Theorem writeError_after_header (rw : ResponseRecorder) message code :
  wroteHeader rw = true ->
  writeError rw message code
  = Some {| Code := Code rw;
            HeaderMap :=
              <["Content-Type"%string := ["application/json"%string]]>
                (HeaderMap rw);
            Body :=
              Body rw
              +:+ Marshal_Error {| Error.Code := code;
                                   Error.Message := message |} +:+ nl;
            wroteHeader := true;
            snapHeader := snapHeader rw |}.
Proof. apply writeError_recorder_written. Qed.

(** X10. Two calls of [writeError] on a fresh response: the reply keeps
    the status code and the headers of the first call, whatever the code
    of the second, and its body holds the two JSON documents one after
    the other, each on a line of its own. *)
Theorem writeError_twice (rw : ResponseRecorder) m1 c1 m2 c2 :
  wroteHeader rw = false -> 100 <= c1 <= 999 ->
  exists rw2,
    (rw1 ← writeError rw m1 c1; writeError rw1 m2 c2) = Some rw2 /\
    Code rw2 = c1 /\
    snapHeader rw2
    = Some (<["Content-Type"%string := ["application/json"%string]]>
              (HeaderMap rw)) /\
    Body rw2
    = (Body rw
       +:+ Marshal_Error {| Error.Code := c1; Error.Message := m1 |} +:+ nl)
      +:+ Marshal_Error {| Error.Code := c2; Error.Message := m2 |} +:+ nl.
Proof.
  intros Hfresh Hc1.
  pose proof (writeError_recorder DetectContentType rw m1 c1 Hfresh Hc1)
    as H1.
  change (recorder DetectContentType) with response_recorder in H1.
  rewrite H1. cbn [mbind option_bind].
  rewrite writeError_recorder_written by reflexivity.
  eexists. split; [reflexivity |]. cbn. repeat split.
Qed.


(** X12. The headers [writeError] sends: the Content-Type it sets
    replaces whatever values the header had, is found under every
    spelling of the name, and every header of another name is sent as it
    was. *)
Theorem writeError_headers (rw : ResponseRecorder) message code :
  wroteHeader rw = false -> 100 <= code <= 999 ->
  exists rw' sent,
    writeError rw message code = Some rw' /\
    snapHeader rw' = Some sent /\
    sent !! "Content-Type"%string = Some ["application/json"%string] /\
    (forall key, CanonicalMIMEHeaderKey key = "Content-Type"%string ->
       Header_Get key sent = "application/json"%string) /\
    (forall key, CanonicalMIMEHeaderKey key <> "Content-Type"%string ->
       Header_Get key sent = Header_Get key (HeaderMap rw) /\
       sent !! CanonicalMIMEHeaderKey key
       = HeaderMap rw !! CanonicalMIMEHeaderKey key).
Proof.
  intros Hfresh Hcode.
  pose proof (writeError_recorder DetectContentType rw message code
                Hfresh Hcode) as H1.
  change (recorder DetectContentType) with response_recorder in H1.
  rewrite H1. eexists. eexists. split; [reflexivity |]. split; [reflexivity |].
  split; [apply lookup_insert_eq |]. split.
  - intros key Hkey. unfold Header_Get. rewrite Hkey.
    rewrite lookup_insert_eq. reflexivity.
  - intros key Hkey. unfold Header_Get.
    rewrite lookup_insert_ne by congruence. split; reflexivity.
Qed.

End ApiResponses.

Section ApiResponseExamples.
Import GoError fmt http httptest callrecorder json api.

Lemma writeError_after_header_witness :
  exists rw2,
    writeError (H := Recorder_ResponseWriter (fun _ => EmptyString))
      {| Code := 404; HeaderMap := ∅; Body := "not found";
         wroteHeader := true; snapHeader := Some ∅ |}
      "second" 0 = Some rw2 /\
    Code rw2 = 404.
Proof.
  eexists. split.
  - apply (writeError_after_header (fun _ => EmptyString)
             {| Code := 404; HeaderMap := ∅; Body := "not found";
                wroteHeader := true; snapHeader := Some ∅ |}
             "second" 0 eq_refl).
  - reflexivity.
Defined.

Lemma writeError_twice_witness :
  exists rw2,
    (rw1 ← writeError (H := Recorder_ResponseWriter (fun _ => EmptyString))
             NewRecorder "bad request" 400;
     writeError (H := Recorder_ResponseWriter (fun _ => EmptyString))
       rw1 "oops" 500) = Some rw2 /\
    Code rw2 = 400.
Proof.
  destruct (writeError_twice (fun _ => EmptyString) NewRecorder
              "bad request" 400 "oops" 500 eq_refl ltac:(lia))
    as [rw2 [Hrun [Hcode _]]].
  exists rw2. split; [exact Hrun | exact Hcode].
Defined.


Lemma writeError_headers_witness :
  exists rw' sent,
    writeError (H := Recorder_ResponseWriter (fun _ => EmptyString))
      NewRecorder "bad request" 400 = Some rw' /\
    snapHeader rw' = Some sent /\
    Header_Get "CONTENT-TYPE" sent = "application/json"%string.
Proof.
  destruct (writeError_headers (fun _ => EmptyString) NewRecorder
              "bad request" 400 eq_refl ltac:(lia))
    as [rw' [sent [Hrun [Hsent [_ [Hget _]]]]]].
  exists rw', sent. split; [exact Hrun |]. split; [exact Hsent |].
  apply Hget. reflexivity.
Defined.

End ApiResponseExamples.

(** ** The bytes of the JSON document *)

Section JsonBytes.
Import utf8 json bytes api.

Lemma all_app P a b : all P (a +:+ b) = all P a && all P b.
Proof.
  induction a as [| c a IH]; [reflexivity |].
  change (String c a +:+ b) with (String c (a +:+ b)).
  cbn [all]. rewrite IH. apply andb_assoc.
Qed.

Lemma all_impl (P Q : ascii -> bool) s :
  (forall c, P c = true -> Q c = true) -> all P s = true -> all Q s = true.
Proof.
  intros HPQ. induction s as [| c s IH]; [reflexivity |]. cbn [all].
  rewrite !andb_true_iff. intros [Hc Hs]. split; [apply HPQ, Hc | apply IH, Hs].
Qed.

Lemma high_html_safe c : high c = true -> html_safe c = true.
Proof.
  unfold high, html_safe. intros H. apply Z.leb_le in H.
  destruct (Z.leb_spec 0x20 (byte c)); [| lia].
  destruct (Z.eqb_spec (byte c) 60); [lia |].
  destruct (Z.eqb_spec (byte c) 62); [lia |].
  destruct (Z.eqb_spec (byte c) 38); [lia | reflexivity].
Qed.

Lemma escape_byte_html_safe c : all html_safe (escape_byte c) = true.
Proof.
  destruct c as [b0 b1 b2 b3 b4 b5 b6 b7].
  destruct b0, b1, b2, b3, b4, b5, b6, b7; vm_compute; reflexivity.
Qed.

(** The bytes of a multi-byte sequence accepted by [DecodeRuneInString]
    are all outside the ASCII range. *)
Lemma DecodeRuneInString_high c rest r size :
  (byte c <? RuneSelf) = false ->
  DecodeRuneInString (String c rest) = (r, size) ->
  all high (take size (String c rest)) = true.
Proof.
  intros Hc. unfold DecodeRuneInString. rewrite Hc.
  assert (Hc' : high c = true)
    by (unfold high; unfold RuneSelf in Hc; apply Z.ltb_ge in Hc;
        apply Z.leb_le; exact Hc).
  unfold first, continuation.
  intros H.
  repeat case_match; simplify_eq; cbn [take all]; rewrite ?Hc'; cbn [andb];
    try reflexivity;
    repeat match goal with
    | Hx : _ || _ = false |- _ => apply orb_false_iff in Hx as [? ?]
    | Hx : negb _ = false |- _ => apply negb_false_iff in Hx
    | Hx : _ && _ = true |- _ => apply andb_true_iff in Hx as [? ?]
    | Hx : (_ <? _) = false |- _ => apply Z.ltb_ge in Hx
    | Hx : (_ <=? _) = true |- _ => apply Z.leb_le in Hx
    end;
    unfold high;
    repeat match goal with
    | |- _ && _ = true => apply andb_true_iff; split
    | |- (_ <=? _) = true => apply Z.leb_le; lia
    end;
    reflexivity.
Qed.

Lemma appendString_loop_html_safe fuel src :
  all html_safe (appendString_loop fuel src) = true.
Proof.
  revert src. induction fuel as [| fuel IH]; intros [| c rest];
    try reflexivity.
  cbn [appendString_loop].
  destruct (byte c <? RuneSelf) eqn:Hc.
  - destruct (htmlSafeSet (byte c)) eqn:Hs.
    + cbn [all]. rewrite IH, andb_true_r.
      unfold htmlSafeSet in Hs. unfold html_safe.
      apply andb_true_iff in Hs as [Hs Hn].
      apply andb_true_iff in Hs as [Hlo _]. rewrite Hlo. cbn [andb].
      apply negb_true_iff in Hn. apply negb_true_iff.
      repeat (apply orb_false_iff in Hn as [Hn ?]).
      repeat (apply orb_false_iff; split); assumption.
    + rewrite all_app, escape_byte_html_safe, IH. reflexivity.
  - destruct (DecodeRuneInString (String c rest)) as [r size] eqn:E.
    destruct ((r =? RuneError) && (size =? 1)%nat).
    + rewrite !all_app, IH. reflexivity.
    + destruct ((r =? 0x2028) || (r =? 0x2029)) eqn:Hsep.
      * rewrite !all_app, IH.
        apply orb_true_iff in Hsep as [Hsep | Hsep];
          apply Z.eqb_eq in Hsep; subst r; reflexivity.
      * rewrite all_app, IH, andb_true_r.
        apply (all_impl high); [apply high_html_safe |].
        apply (DecodeRuneInString_high c rest r size Hc E).
Qed.

Lemma pretty_N_char_html_safe x : html_safe (pretty_N_char x) = true.
Proof. unfold pretty_N_char. repeat case_match; reflexivity. Qed.

Lemma pretty_N_go_html_safe x s :
  all html_safe s = true -> all html_safe (pretty_N_go x s) = true.
Proof.
  revert s. induction (N.lt_wf_0 x) as [x _ IH]; intros s Hs.
  destruct (N.eq_dec x 0%N) as [-> | Hx]; [rewrite pretty_N_go_0; exact Hs |].
  rewrite pretty_N_go_step by lia.
  apply IH; [apply N.div_lt; lia |].
  cbn [all]. rewrite pretty_N_char_html_safe, Hs. reflexivity.
Qed.

Lemma pretty_Z_html_safe (z : Z) : all html_safe (pretty z) = true.
Proof.
  assert (HN : forall n : N, all html_safe (pretty n) = true).
  { intros n. unfold pretty, pretty_N. case_decide; [reflexivity |].
    apply pretty_N_go_html_safe. reflexivity. }
  destruct z as [| p | p]; [reflexivity | apply (HN (Npos p)) |].
  change (pretty (Zneg p)) with ("-" +:+ pretty (Npos p)).
  rewrite all_app, (HN (Npos p)). reflexivity.
Qed.

Lemma all_not_In P s c :
  all P s = true -> P c = false -> ~ In c (list_ascii_of_string s).
Proof.
  intros Hall Hc. induction s as [| x s IH]; [intros [] |].
  cbn [all] in Hall. apply andb_true_iff in Hall as [Hx Hs].
  cbn [list_ascii_of_string]. intros [-> | Hin]; [congruence |].
  exact (IH Hs Hin).
Qed.

(** X13. The JSON document [writeError] writes holds no raw control
    character and none of [<], [>], [&], whatever the message: such bytes
    of the message are escaped. In particular the document holds no
    newline, so the body, document plus final newline, is one line. *)
Theorem Marshal_Error_html_safe (v : Error.t) :
  all html_safe (Marshal_Error v) = true /\
  ~ In "010"%char (list_ascii_of_string (Marshal_Error v)).
Proof.
  assert (H : all html_safe (Marshal_Error v) = true).
  { unfold Marshal_Error, appendInt, appendString.
    rewrite !all_app, pretty_Z_html_safe, appendString_loop_html_safe.
    reflexivity. }
  split; [exact H |]. apply (all_not_In html_safe _ _ H). reflexivity.
Qed.

End JsonBytes.

(** ** Distinct errors give distinct documents *)

Section JsonInjective.
Import utf8 json bytes jsonread api.

Lemma string_append_assoc (a b c : string) :
  (a +:+ b) +:+ c = a +:+ (b +:+ c).
Proof.
  induction a as [| x a IH]; [reflexivity |].
  change (String x ((a +:+ b) +:+ c) = String x (a +:+ (b +:+ c))).
  rewrite IH. reflexivity.
Qed.

(** What the loop of [appendString] emits for one ASCII byte. *)
Let unit_of (c : ascii) : string :=
  if htmlSafeSet (byte c) then String c EmptyString else escape_byte c.

Lemma appendString_loop_ascii_step fuel c rest :
  ascii_range c = true ->
  appendString_loop (S fuel) (String c rest)
  = unit_of c +:+ appendString_loop fuel rest.
Proof.
  unfold ascii_range, unit_of. intros Hc. cbn [appendString_loop].
  change RuneSelf with 0x80. rewrite Hc.
  destruct (htmlSafeSet (byte c)); reflexivity.
Qed.

(** Reading one unit undoes the encoding of one ASCII byte. *)
Lemma read_unit_of c r :
  ascii_range c = true -> read_unit (unit_of c +:+ r) = Some (c, r).
Proof.
  intros Hc. destruct c as [b0 b1 b2 b3 b4 b5 b6 b7].
  destruct b0, b1, b2, b3, b4, b5, b6, b7;
    try (vm_compute in Hc; discriminate Hc); reflexivity.
Qed.

(** The encoding of an ASCII byte never starts with a raw double quote. *)
Lemma unit_of_not_quote c r t :
  ascii_range c = true -> unit_of c +:+ r <> String "034" t.
Proof.
  intros Hc. destruct c as [b0 b1 b2 b3 b4 b5 b6 b7].
  destruct b0, b1, b2, b3, b4, b5, b6, b7;
    try (vm_compute in Hc; discriminate Hc); discriminate.
Qed.

(** Two encoded ASCII strings, each followed by a raw double quote, are
    equal only when the strings are. *)
Lemma appendString_loop_ascii_inj fuel1 :
  forall fuel2 m1 m2 t1 t2,
    (String.length m1 <= fuel1)%nat -> (String.length m2 <= fuel2)%nat ->
    all ascii_range m1 = true -> all ascii_range m2 = true ->
    appendString_loop fuel1 m1 +:+ String "034" t1
    = appendString_loop fuel2 m2 +:+ String "034" t2 ->
    m1 = m2 /\ t1 = t2.
Proof.
  induction fuel1 as [| fuel1 IH]; intros fuel2 m1 m2 t1 t2 H1 H2 A1 A2 E.
  - destruct m1; [| cbn in H1; lia].
    destruct m2 as [| c2 m2'].
    + destruct fuel2; cbn in E; injection E as ->; split; reflexivity.
    + destruct fuel2 as [| fuel2]; [cbn in H2; lia |].
      cbn [all] in A2. apply andb_true_iff in A2 as [Hc2 _].
      rewrite (appendString_loop_ascii_step _ _ _ Hc2) in E.
      cbn [appendString_loop] in E. symmetry in E.
      rewrite string_append_assoc in E.
      exfalso. exact (unit_of_not_quote _ _ _ Hc2 E).
  - destruct m1 as [| c1 m1'].
    + destruct m2 as [| c2 m2'].
      * destruct fuel2; cbn in E; injection E as ->; split; reflexivity.
      * destruct fuel2 as [| fuel2]; [cbn in H2; lia |].
        cbn [all] in A2. apply andb_true_iff in A2 as [Hc2 _].
        rewrite (appendString_loop_ascii_step _ _ _ Hc2) in E.
        cbn [appendString_loop] in E. symmetry in E.
        rewrite string_append_assoc in E.
        exfalso. exact (unit_of_not_quote _ _ _ Hc2 E).
    + cbn [all] in A1. apply andb_true_iff in A1 as [Hc1 A1].
      rewrite (appendString_loop_ascii_step _ _ _ Hc1) in E.
      rewrite string_append_assoc in E.
      destruct m2 as [| c2 m2'].
      * exfalso.
        assert (E' : appendString_loop fuel2 EmptyString = EmptyString)
          by (destruct fuel2; reflexivity).
        rewrite E' in E. exact (unit_of_not_quote _ _ _ Hc1 E).
      * destruct fuel2 as [| fuel2]; [cbn in H2; lia |].
        cbn [all] in A2. apply andb_true_iff in A2 as [Hc2 A2].
        rewrite (appendString_loop_ascii_step _ _ _ Hc2) in E.
        rewrite string_append_assoc in E.
        pose proof (read_unit_of c1
                      (appendString_loop fuel1 m1' +:+ String "034" t1) Hc1)
          as R1.
        pose proof (read_unit_of c2
                      (appendString_loop fuel2 m2' +:+ String "034" t2) Hc2)
          as R2.
        rewrite E in R1. rewrite R1 in R2. injection R2 as -> E2.
        cbn [String.length] in H1, H2.
        destruct (IH fuel2 m1' m2' t1 t2 ltac:(lia) ltac:(lia) A1 A2 E2)
          as [-> ->].
        split; reflexivity.
Qed.

Lemma pretty_N_go_all P x s :
  (forall d, P (pretty_N_char d) = true) ->
  all P s = true -> all P (pretty_N_go x s) = true.
Proof.
  intros HP. revert s. induction (N.lt_wf_0 x) as [x _ IH]; intros s Hs.
  destruct (N.eq_dec x 0%N) as [-> | Hx]; [rewrite pretty_N_go_0; exact Hs |].
  rewrite pretty_N_go_step by lia.
  apply IH; [apply N.div_lt; lia |].
  cbn [all]. rewrite HP, Hs. reflexivity.
Qed.

(** A byte other than the comma. *)
Let not_comma (c : ascii) : bool := negb (byte c =? 44).

Lemma pretty_Z_no_comma (z : Z) : all not_comma (pretty z) = true.
Proof.
  assert (HP : forall d, not_comma (pretty_N_char d) = true)
    by (intros d; unfold pretty_N_char; repeat case_match; reflexivity).
  assert (HN : forall n : N, all not_comma (pretty n) = true).
  { intros n. unfold pretty, pretty_N. case_decide; [reflexivity |].
    apply pretty_N_go_all; [exact HP | reflexivity]. }
  destruct z as [| p | p]; [reflexivity | apply (HN (Npos p)) |].
  change (pretty (Zneg p)) with ("-" +:+ pretty (Npos p)).
  rewrite all_app, (HN (Npos p)). reflexivity.
Qed.

(** Two texts without comma, each followed by a comma, are equal only
    when the texts are. *)
Lemma split_at_comma a :
  forall b x y,
    all not_comma a = true -> all not_comma b = true ->
    a +:+ String "," x = b +:+ String "," y -> a = b /\ x = y.
Proof.
  induction a as [| c a IH]; intros [| c' b] x y Ha Hb E.
  - injection E as ->. split; reflexivity.
  - cbn in E, Hb. injection E as <- _. discriminate Hb.
  - cbn in E, Ha. injection E as -> _. discriminate Ha.
  - cbn [all] in Ha, Hb.
    apply andb_true_iff in Ha as [_ Ha]. apply andb_true_iff in Hb as [_ Hb].
    change (String c (a +:+ String "," x) = String c' (b +:+ String "," y))
      in E.
    injection E as -> E. destruct (IH b x y Ha Hb E) as [-> ->].
    split; reflexivity.
Qed.

(** X14. For messages made of ASCII bytes the JSON document loses
    nothing: two errors with the same document have the same code and the
    same message. The condition matters: every byte that is not valid
    UTF-8 is written as U+FFFD, so the messages made of the single byte
    255 and of the single byte 254 share their document. *)
Theorem Marshal_Error_injective (v1 v2 : Error.t) :
  all ascii_range (Error.Message v1) = true ->
  all ascii_range (Error.Message v2) = true ->
  (Marshal_Error v1 = Marshal_Error v2 -> v1 = v2) /\
  Marshal_Error {| Error.Code := 400;
                   Error.Message := String "255" EmptyString |}
  = Marshal_Error {| Error.Code := 400;
                     Error.Message := String "254" EmptyString |}.
Proof.
  intros A1 A2. split; [| reflexivity].
  destruct v1 as [c1 m1], v2 as [c2 m2]. cbn [Error.Message] in A1, A2.
  unfold Marshal_Error, appendInt, appendString.
  cbn [Error.Code Error.Message]. intros E.
  apply (String.app_inj "{") in E. apply (String.app_inj dq) in E.
  apply (String.app_inj "Code") in E. apply (String.app_inj dq) in E.
  apply (String.app_inj ":") in E.
  destruct (split_at_comma _ _ _ _ (pretty_Z_no_comma c1)
              (pretty_Z_no_comma c2) E) as [Hc E'].
  apply (inj pretty) in Hc. subst c2.
  apply (String.app_inj dq) in E'. apply (String.app_inj "Message") in E'.
  apply (String.app_inj dq) in E'. apply (String.app_inj ":") in E'.
  rewrite !string_append_assoc in E'.
  apply (String.app_inj dq) in E'.
  change (dq +:+ "}") with (String "034" "}") in E'.
  destruct (appendString_loop_ascii_inj _ _ m1 m2 _ _
              (le_n _) (le_n _) A1 A2 E') as [-> _].
  reflexivity.
Qed.

Lemma Marshal_Error_injective_witness :
  all ascii_range "a<b" = true /\ all ascii_range "a&b" = true /\
  Marshal_Error {| Error.Code := 400; Error.Message := "a<b" |}
  <> Marshal_Error {| Error.Code := 500; Error.Message := "a&b" |}.
Proof.
  split; [reflexivity |]. split; [reflexivity |].
  pose proof (proj1 (Marshal_Error_injective
                       {| Error.Code := 400; Error.Message := "a<b" |}
                       {| Error.Code := 500; Error.Message := "a&b" |}
                       eq_refl eq_refl)) as Hinj.
  exact (fun E => match Hinj E in _ = v
                  return match Error.Code v with 400 => True | _ => False end
                  with eq_refl => I end).
Defined.

End JsonInjective.
